(** * Y-image-gen: the edit-request adapter and its caller

    A shallow embedding of [src/services/geminiService.ts] and of the
    non-presentational part of [src/App.tsx] ([fileToUploadedFile],
    the component state and [handleSubmit]).

    Asynchronous functions are programs over a small set of external
    events (the remote call, the file read, the console); a promise is its
    settled outcome.  JavaScript strings are [string]; every separator
    and literal the code uses is ASCII, so splitting on a comma
    agrees on UTF-8 bytes and on UTF-16 code units. *)

From Stdlib.Strings Require Import String Ascii Byte.
From Stdlib Require Import List Bool Arith Lia.
Import ListNotations.
Open Scope string_scope.

(** ** JavaScript values that cross the adapter boundary *)

Module Js.

(** The values a [catch] clause can receive or a promise can reject
    with.  [JError] is an instance of [Error] (or of a subclass)
    with its [message]; everything else fails [instanceof Error]. *)
Inductive value : Type :=
| JUndefined
| JNull
| JBool (b : bool)
| JNumber (n : nat)
| JString (s : string)
| JError (message : string)
| JObject (keys : list string).

(** [v instanceof Error] *)
Definition instanceofError (v : value) : bool :=
  match v with
  | JError _ => true
  | _ => false
  end.

Definition isString (v : value) : bool :=
  match v with
  | JString _ => true
  | _ => false
  end.

(** An optional string spliced into a template literal: [undefined]
    prints as the nine letters of its name. *)
Definition template (o : option string) : string :=
  match o with
  | Some s => s
  | None => "undefined"
  end.

(** [s.split(sep)] for a one-character separator: the segments between
    the separators, in order; never empty. *)
Fixpoint split (sep : ascii) (s : string) : list string :=
  match s with
  | EmptyString => [EmptyString]
  | String c rest =>
      if Ascii.eqb c sep then EmptyString :: split sep rest
      else match split sep rest with
           | seg :: segs => String c seg :: segs
           | [] => [String c EmptyString]
           end
  end.

(** [xs[i]]: [undefined] out of range. *)
Definition index {A : Type} (xs : list A) (i : nat) : option A :=
  nth_error xs i.

(** A settled promise. *)
Inductive promise (A : Type) : Type :=
| Resolved (a : A)
| Rejected (reason : value).
Arguments Resolved {A} a.
Arguments Rejected {A} reason.

End Js.
Import Js.

(** ** Data model *)

(** [UploadedFile] of [src/types]: the declaration is not part of the
    sources; the three fields are the ones [fileToUploadedFile] fills. *)
Record UploadedFile : Type := mkUploadedFile {
  base64 : string;
  mimeType : string;
  name : string
}.

(** The browser's [File]: declared type, name and contents. *)
Record File : Type := mkFile {
  file_type : string;
  file_name : string;
  file_bytes : list byte
}.

(** The parts of the SDK's request and response types the code touches. *)
Module GenAI.

Record Blob : Type := mkBlob {
  data : option string;
  blobMimeType : option string
}.

Record Part : Type := mkPart {
  inlineData : option Blob;
  text : option string
}.

Record Content : Type := mkContent {
  parts : option (list Part)
}.

Record Candidate : Type := mkCandidate {
  content : option Content
}.

Record GenerateContentResponse : Type := mkResponse {
  candidates : option (list Candidate)
}.

Inductive Modality : Type := TEXT | IMAGE | AUDIO.

Record Config : Type := mkConfig {
  responseModalities : list Modality
}.

Record Request : Type := mkRequest {
  model : string;
  contents : Content;
  config : Config
}.

(** What [await ai.models.generateContent(...)] does: it yields a
    response or throws. *)
Inductive outcome : Type :=
| Returned (response : GenerateContentResponse)
| Threw (error : value).

End GenAI.
Import GenAI.

(** What a [FileReader] does after [readAsDataURL]: [onload] with the
    result, or [onerror]. *)
Inductive readOutcome : Type :=
| Loaded (result : string)
| ReadError (error : value).

(** ** Programs over external events *)

Inductive event : Type -> Type :=
| GenerateContent (request : Request) : event outcome
| ReadAsDataURL (file : File) : event readOutcome
| ConsoleError (args : list value) : event unit.

Inductive prog (A : Type) : Type :=
| Ret (a : A)
| Vis (X : Type) (e : event X) (k : X -> prog A).
Arguments Ret {A} a.
Arguments Vis {A X} e k.

Fixpoint bind {A B : Type} (p : prog A) (f : A -> prog B) : prog B :=
  match p with
  | Ret a => f a
  | Vis e k => Vis e (fun x => bind (k x) f)
  end.

Definition trigger {X : Type} (e : event X) : prog X := Vis e Ret.

Declare Scope prog_scope.
Delimit Scope prog_scope with prog.
Notation "x <- p ;; q" := (bind p (fun x => q))
  (at level 61, p at next level, right associativity) : prog_scope.
Notation "p ;;; q" := (bind p (fun _ => q))
  (at level 61, right associativity) : prog_scope.

(** The environment of one run: the remote service and the file reader. *)
Record world : Type := mkWorld {
  generateContent : Request -> outcome;
  readFile : File -> readOutcome
}.

(** What an observer of a run sees. *)
Inductive observed : Type :=
| ObsGenerate (request : Request)
| ObsRead (file : File)
| ObsConsole (args : list value).

Definition answer (w : world) {X : Type} (e : event X) : X * observed :=
  match e in event T return T * observed with
  | GenerateContent request => (generateContent w request, ObsGenerate request)
  | ReadAsDataURL file => (readFile w file, ObsRead file)
  | ConsoleError args => (tt, ObsConsole args)
  end.

Fixpoint run {A : Type} (w : world) (p : prog A) : list observed * A :=
  match p with
  | Ret a => ([], a)
  | Vis e k =>
      let (x, o) := answer w e in
      let (tr, a) := run w (k x) in
      (o :: tr, a)
  end.

Definition result {A : Type} (w : world) (p : prog A) : A := snd (run w p).
Definition trace {A : Type} (w : world) (p : prog A) : list observed :=
  fst (run w p).

Definition networkCalls {A : Type} (w : world) (p : prog A) : list Request :=
  flat_map (fun o => match o with ObsGenerate r => [r] | _ => [] end)
           (trace w p).

(** ** src/services/geminiService.ts *)

Definition comma : ascii := ","%char.

(** [image.base64.split(',')[1]] *)
Definition base64Data (image : UploadedFile) : option string :=
  index (split comma (base64 image)) 1.

(** The argument of [ai.models.generateContent]. *)
Definition request (image : UploadedFile) (prompt : string) : Request :=
  {| model := "gemini-2.5-flash-image";
     contents :=
       {| parts := Some
            [ {| inlineData := Some {| data := base64Data image;
                                       blobMimeType := Some (mimeType image) |};
                 text := None |};
              {| inlineData := None; text := Some prompt |} ] |};
     config := {| responseModalities := [IMAGE] |} |}.

(** [response.candidates?.[0]?.content?.parts ?? []] *)
Definition responseParts (response : GenerateContentResponse) : list Part :=
  match candidates response with
  | None => []
  | Some cs =>
      match index cs 0 with
      | None => []
      | Some c =>
          match content c with
          | None => []
          | Some ct =>
              match parts ct with
              | None => []
              | Some ps => ps
              end
          end
      end
  end.

(** [`data:${newMimeType};base64,${newBase64Data}`] *)
Definition dataUrl (newMimeType newBase64Data : option string) : string :=
  "data:" ++ template newMimeType ++ ";base64," ++ template newBase64Data.

(** The [for ... of] loop: [Some] is its [return], [None] is falling
    out of the loop. *)
Fixpoint findImage (ps : list Part) : option string :=
  match ps with
  | [] => None
  | part :: rest =>
      match inlineData part with
      | Some blob => Some (dataUrl (blobMimeType blob) (data blob))
      | None => findImage rest
      end
  end.

Definition noImageMessage : string :=
  "No image was generated in the API response.".
Definition failedPrefix : string := "Failed to generate image: ".
Definition unknownMessage : string :=
  "An unknown error occurred while generating the image.".

(** The [try] block: [inl] is its [return], [inr] the value thrown. *)
Definition tryBlock (image : UploadedFile) (prompt : string)
  : prog (string + value) :=
  (r <- trigger (GenerateContent (request image prompt)) ;;
   match r with
   | Threw error => Ret (inr error)
   | Returned response =>
       match findImage (responseParts response) with
       | Some url => Ret (inl url)
       | None => Ret (inr (JError noImageMessage))
       end
   end)%prog.

(** The [catch] block. *)
Definition catchBlock (error : value) : prog (promise string) :=
  (trigger (ConsoleError [JString "Error editing image with Gemini:"; error]) ;;;
   match error with
   | JError message => Ret (Rejected (JString (failedPrefix ++ message)))
   | _ => Ret (Rejected (JString unknownMessage))
   end)%prog.

Definition editImageWithGemini (image : UploadedFile) (prompt : string)
  : prog (promise string) :=
  (r <- tryBlock image prompt ;;
   match r with
   | inl url => Ret (Resolved url)
   | inr error => catchBlock error
   end)%prog.

(** ** src/App.tsx *)

(** [fileToUploadedFile]: the promise settles from [reader.onload] or
    [reader.onerror]. *)
Definition fileToUploadedFile (file : File) : prog (promise UploadedFile) :=
  (r <- trigger (ReadAsDataURL file) ;;
   match r with
   | Loaded readerResult =>
       Ret (Resolved {| base64 := readerResult;
                        mimeType := file_type file;
                        name := file_name file |})
   | ReadError error => Ret (Rejected error)
   end)%prog.

(** The five [useState] cells of [App].  [error] is typed
    [string | null], but [handleSubmit] stores the caught value behind
    an unchecked cast, so the cell holds any value. *)
Record App : Type := mkApp {
  originalImage : option UploadedFile;
  editedImage : option string;
  prompt : string;
  isLoading : bool;
  error : option value
}.

Definition setOriginalImage (v : option UploadedFile) (s : App) : App :=
  {| originalImage := v; editedImage := editedImage s; prompt := prompt s;
     isLoading := isLoading s; error := error s |}.
Definition setEditedImage (v : option string) (s : App) : App :=
  {| originalImage := originalImage s; editedImage := v; prompt := prompt s;
     isLoading := isLoading s; error := error s |}.
Definition setPrompt (v : string) (s : App) : App :=
  {| originalImage := originalImage s; editedImage := editedImage s;
     prompt := v; isLoading := isLoading s; error := error s |}.
Definition setIsLoading (v : bool) (s : App) : App :=
  {| originalImage := originalImage s; editedImage := editedImage s;
     prompt := prompt s; isLoading := v; error := error s |}.
Definition setError (v : option value) (s : App) : App :=
  {| originalImage := originalImage s; editedImage := editedImage s;
     prompt := prompt s; isLoading := isLoading s; error := v |}.

(** Truthiness of a string: [!prompt] holds of the empty string only. *)
Definition truthy (s : string) : bool :=
  match s with
  | EmptyString => false
  | String _ _ => true
  end.

Definition readFailedMessage : string := "Failed to read the image file.".
Definition validationMessage : string :=
  "Please upload an image and provide a prompt.".

(** [handleImageSelect]; the [finally] clause runs on both paths. *)
Definition handleImageSelect (file : File) (s : App) : prog App :=
  let s := setIsLoading true s in
  let s := setError None s in
  let s := setEditedImage None s in
  (r <- fileToUploadedFile file ;;
   match r with
   | Resolved uploadedFile =>
       let s := setOriginalImage (Some uploadedFile) s in
       Ret (setIsLoading false s)
   | Rejected e =>
       let s := setError (Some (JString readFailedMessage)) s in
       trigger (ConsoleError [e]) ;;;
       Ret (setIsLoading false s)
   end)%prog.

(** [handleSubmit]: the state the handler was invoked in goes in, the
    state after its last setter comes out. *)
Definition handleSubmit (s : App) : prog App :=
  match originalImage s with
  | None => Ret (setError (Some (JString validationMessage)) s)
  | Some image =>
      if negb (truthy (prompt s))
      then Ret (setError (Some (JString validationMessage)) s)
      else
        let s := setIsLoading true s in
        let s := setError None s in
        let s := setEditedImage None s in
        (r <- editImageWithGemini image (prompt s) ;;
         match r with
         | Resolved result =>
             let s := setEditedImage (Some result) s in
             Ret (setIsLoading false s)
         | Rejected e =>
             let s := setError (Some e) s in
             trigger (ConsoleError [e]) ;;;
             Ret (setIsLoading false s)
         end)%prog
  end.

(** ** The platform's data-URL encoder *)

Module DataURL.

(** Six bits, most significant first. *)
Definition sextet : Type := (bool * bool * bool * bool * bool * bool)%type.

Definition alphabet : string :=
  "ABCDEFGHIJKLMNOPQRSTUVWXYZabcdefghijklmnopqrstuvwxyz0123456789+/".

Definition pad : ascii := "="%char.

Definition weight (b : bool) (n : nat) : nat := if b then n else 0.

Definition sextet_index (s : sextet) : nat :=
  let '(b5, b4, b3, b2, b1, b0) := s in
  weight b5 32 + weight b4 16 + weight b3 8 + weight b2 4 + weight b1 2
  + weight b0 1.

Definition sextet_of_index (n : nat) : sextet :=
  (Nat.testbit n 5, Nat.testbit n 4, Nat.testbit n 3,
   Nat.testbit n 2, Nat.testbit n 1, Nat.testbit n 0).

Definition digit (s : sextet) : ascii :=
  match String.get (sextet_index s) alphabet with
  | Some c => c
  | None => pad
  end.

Fixpoint position (c : ascii) (s : string) : option nat :=
  match s with
  | EmptyString => None
  | String d rest =>
      if Ascii.eqb c d then Some 0 else option_map S (position c rest)
  end.

Definition digit_value (c : ascii) : option sextet :=
  option_map sextet_of_index (position c alphabet).

(** Three bytes make four digits; [Byte.to_bits] lists the least
    significant bit first. *)
Definition encode3 (x y z : byte) : sextet * sextet * sextet * sextet :=
  let '(x0, (x1, (x2, (x3, (x4, (x5, (x6, x7))))))) := Byte.to_bits x in
  let '(y0, (y1, (y2, (y3, (y4, (y5, (y6, y7))))))) := Byte.to_bits y in
  let '(z0, (z1, (z2, (z3, (z4, (z5, (z6, z7))))))) := Byte.to_bits z in
  ((x7, x6, x5, x4, x3, x2), (x1, x0, y7, y6, y5, y4),
   (y3, y2, y1, y0, z7, z6), (z5, z4, z3, z2, z1, z0)).

Definition decode3 (s1 s2 s3 s4 : sextet) : byte * byte * byte :=
  let '(x7, x6, x5, x4, x3, x2) := s1 in
  let '(x1, x0, y7, y6, y5, y4) := s2 in
  let '(y3, y2, y1, y0, z7, z6) := s3 in
  let '(z5, z4, z3, z2, z1, z0) := s4 in
  (Byte.of_bits (x0, (x1, (x2, (x3, (x4, (x5, (x6, x7))))))),
   Byte.of_bits (y0, (y1, (y2, (y3, (y4, (y5, (y6, y7))))))),
   Byte.of_bits (z0, (z1, (z2, (z3, (z4, (z5, (z6, z7)))))))).

Definition zero_sextet : sextet := (false, false, false, false, false, false).

(** Modelled from the spec: the encoding behind [readAsDataURL], which
    is not part of the sources; Base64 with padding (RFC 4648, section 4),
    the encoding the spec's [";base64,"] strings name. *)
Fixpoint base64_encode (bytes : list byte) : string :=
  match bytes with
  | [] => EmptyString
  | [x] =>
      let '(s1, s2, _, _) := encode3 x x00 x00 in
      String (digit s1) (String (digit s2) (String pad (String pad EmptyString)))
  | [x; y] =>
      let '(s1, s2, s3, _) := encode3 x y x00 in
      String (digit s1)
        (String (digit s2) (String (digit s3) (String pad EmptyString)))
  | x :: y :: z :: rest =>
      let '(s1, s2, s3, s4) := encode3 x y z in
      String (digit s1)
        (String (digit s2)
           (String (digit s3) (String (digit s4) (base64_encode rest))))
  end.

Definition decode_quad (c1 c2 c3 c4 : ascii) : option (byte * byte * byte) :=
  match digit_value c1, digit_value c2, digit_value c3, digit_value c4 with
  | Some s1, Some s2, Some s3, Some s4 => Some (decode3 s1 s2 s3 s4)
  | _, _, _, _ => None
  end.

Fixpoint base64_decode (s : string) : option (list byte) :=
  match s with
  | EmptyString => Some []
  | String c1 (String c2 (String c3 (String c4 rest))) =>
      if Ascii.eqb c4 pad then
        match rest with
        | EmptyString =>
            if Ascii.eqb c3 pad then
              match decode_quad c1 c2 (digit zero_sextet) (digit zero_sextet) with
              | Some (x, _, _) => Some [x]
              | None => None
              end
            else
              match decode_quad c1 c2 c3 (digit zero_sextet) with
              | Some (x, y, _) => Some [x; y]
              | None => None
              end
        | String _ _ => None
        end
      else
        match decode_quad c1 c2 c3 c4, base64_decode rest with
        | Some (x, y, z), Some bytes => Some (x :: y :: z :: bytes)
        | _, _ => None
        end
  | _ => None
  end.

(** Modelled from the spec: [FileReader.readAsDataURL], the browser's
    encoder that [fileToUploadedFile] calls, is not part of the sources.
    The spec has it "encode into a self-describing string
    (media-type-prefixed encoding)" of the shape
    ["data:image/jpeg;base64,AAAA"]: the declared media type between
    ["data:"] and [";base64,"], then the Base64 text of the bytes. *)
Definition readAsDataURL (file : File) : string :=
  "data:" ++ file_type file ++ ";base64," ++ base64_encode (file_bytes file).

(** The embedded media-type prefix of a self-describing string. *)
Definition prefixOf (mediaType : string) : string :=
  "data:" ++ mediaType ++ ";base64,".

(** [stripPrefix p s]: the rest of [s] behind its prefix [p]. *)
Fixpoint stripPrefix (p s : string) : option string :=
  match p with
  | EmptyString => Some s
  | String a p' =>
      match s with
      | EmptyString => None
      | String b s' => if Ascii.eqb a b then stripPrefix p' s' else None
      end
  end.

End DataURL.
Import DataURL.

(** A browser whose reads succeed; the remote service is [remote]. *)
Definition browser (remote : Request -> outcome) : world :=
  {| generateContent := remote;
     readFile := fun file => Loaded (readAsDataURL file) |}.

(** ** Vocabulary of the statements *)

(** How often [c] occurs in [s]. *)
Fixpoint occurrences (c : ascii) (s : string) : nat :=
  match s with
  | EmptyString => 0
  | String d rest => (if Ascii.eqb d c then 1 else 0) + occurrences c rest
  end.

Definition commaFree (s : string) : Prop := occurrences comma s = 0.

(** [s] has [sub] somewhere inside. *)
Definition contains (s sub : string) : Prop :=
  exists before after, s = before ++ sub ++ after.

(** The stripping step is faithful on [image] when what it hands to the
    remote service is all of the data behind the comma that ends the
    prefix. *)
Definition faithfulStrip (image : UploadedFile) : Prop :=
  exists pre raw,
    base64 image = pre ++ "," ++ raw /\ commaFree pre /\
    base64Data image = Some raw.

(** A part that carries inline binary content. *)
Definition hasInlineData (p : Part) : bool :=
  match inlineData p with
  | Some _ => true
  | None => false
  end.

(** A response whose first candidate has the parts [ps]; the other
    candidates are [others]. *)
Definition responseWith (ps : list Part) (others : list Candidate)
  : GenerateContentResponse :=
  {| candidates := Some ({| content := Some {| parts := Some ps |} |} :: others) |}.

Definition textPart (t : string) : Part :=
  {| inlineData := None; text := Some t |}.
Definition imagePart (payload mediaType : string) : Part :=
  {| inlineData := Some {| data := Some payload; blobMimeType := Some mediaType |};
     text := None |}.

(** A remote service that answers every request the same way. *)
Definition always (o : outcome) : Request -> outcome := fun _ => o.

Definition catJpg : UploadedFile :=
  {| base64 := "data:image/jpeg;base64,AAAA";
     mimeType := "image/jpeg";
     name := "cat.jpg" |}.

(** The parts of the first candidate, when the response has them. *)
Definition firstCandidateParts (response : GenerateContentResponse)
  : option (list Part) :=
  match candidates response with
  | Some (c :: _) =>
      match content c with
      | Some ct => parts ct
      | None => None
      end
  | _ => None
  end.

Definition noInlineData (ps : list Part) : Prop :=
  Forall (fun p => inlineData p = None) ps.

(** No part of the first candidate has an [inlineData] field, whatever
    such a field would hold; this includes responses without
    candidates, content or parts.  It is the test the loop makes. *)
Definition noInlineDataField (response : GenerateContentResponse) : Prop :=
  match firstCandidateParts response with
  | Some ps => noInlineData ps
  | None => True
  end.

(** The spec's "part that carries embedded binary image content", taken
    at its word: the part has inline data, with content, of an image
    media type. *)
Definition carriesImageContent (p : Part) : bool :=
  match inlineData p with
  | Some {| data := Some _; blobMimeType := Some mediaType |} =>
      String.prefix "image/" mediaType
  | _ => false
  end.

(** No part of the first candidate carries image content. *)
Definition noImageContent (response : GenerateContentResponse) : Prop :=
  match firstCandidateParts response with
  | Some ps => Forall (fun p => carriesImageContent p = false) ps
  | None => True
  end.

(** A part whose [inlineData] is the empty object. *)
Definition emptyBlobPart : Part :=
  {| inlineData := Some {| data := None; blobMimeType := None |};
     text := None |}.

(** The request the spec describes for raw content [raw]. *)
Definition wireRequest (raw mediaType instruction : string) : Request :=
  {| model := "gemini-2.5-flash-image";
     contents := {| parts := Some [imagePart raw mediaType; textPart instruction] |};
     config := {| responseModalities := [IMAGE] |} |}.

(** An image whose media type carries a comma. *)
Definition annotatedPng : UploadedFile :=
  {| base64 := "data:image/png;note=a,b;base64,AAAA";
     mimeType := "image/png;note=a,b";
     name := "x.png" |}.

(** The raw content a request hands to the remote service: the data of
    the inline part that leads its parts. *)
Definition transmittedContent (r : Request) : option string :=
  match parts (contents r) with
  | Some (p :: _) =>
      match inlineData p with
      | Some blob => data blob
      | None => None
      end
  | _ => None
  end.

(** A session with the cat picture loaded, an earlier result on display
    and an instruction typed in. *)
Definition catSession : App :=
  {| originalImage := Some catJpg; editedImage := Some "data:image/png;base64,OLD";
     prompt := "make it red"; isLoading := false; error := None |}.

(** ** The rest of src/App.tsx *)

(** [handleFileChange], in [ImageUploader] and in [App]:
    [e.target.files?.[0]], then the selection handler when there is a
    file. *)
Definition handleFileChange (files : option (list File)) (s : App) : prog App :=
  match files with
  | None => Ret s
  | Some fs =>
      match index fs 0 with
      | Some file => handleImageSelect file s
      | None => Ret s
      end
  end.

(** Truthiness of a value, as [error && ...] tests it. *)
Definition truthyValue (v : value) : bool :=
  match v with
  | JUndefined => false
  | JNull => false
  | JBool b => b
  | JNumber n => negb (Nat.eqb n 0)
  | JString t => truthy t
  | JError _ => true
  | JObject _ => true
  end.

(** What [App] returns, reduced to the parts that depend on the state. *)
Module View.

Inductive picture : Type :=
| Img (src alt : string)
| Placeholder.

Inductive child : Type :=
| ChangeImageButton
| FileInput (accept : string)
| DownloadLink (href download : string).

Record imageDisplay : Type := mkImageDisplay {
  heading : string;
  spinner : bool;
  shown : picture;
  children : list child
}.

(** The [ImageDisplay] component: [isLoading && <Spinner />] and
    [imageSrc ? <img .../> : placeholder]. *)
Definition ImageDisplay (title : string) (imageSrc : option string)
  (children : list child) (isLoading : option bool) : imageDisplay :=
  {| heading := title;
     spinner := match isLoading with Some b => b | None => false end;
     shown := match imageSrc with
              | Some src => if truthy src then Img src title else Placeholder
              | None => Placeholder
              end;
     children := children |}.

Record editor : Type := mkEditor {
  originalPane : imageDisplay;
  editedPane : imageDisplay;
  alert : option value;
  promptValue : string;
  promptDisabled : bool;
  submitDisabled : bool;
  submitLabel : string;
  submitSparkles : bool
}.

Inductive screen : Type :=
| Uploader
| Editor (e : editor).

End View.
Import View.

(** The [return] of [App]. *)
Definition render (s : App) : screen :=
  match originalImage s with
  | None => Uploader
  | Some original =>
      Editor
        {| originalPane :=
             ImageDisplay "Original Image" (Some (base64 original))
               [ChangeImageButton; FileInput "image/png, image/jpeg"] None;
           editedPane :=
             ImageDisplay "Edited Image" (editedImage s)
               match editedImage s with
               | Some edited =>
                   if truthy edited
                   then [DownloadLink edited ("edited-" ++ name original)]
                   else []
               | None => []
               end
               (Some (isLoading s));
           alert :=
             match error s with
             | Some v => if truthyValue v then Some v else None
             | None => None
             end;
           promptValue := prompt s;
           promptDisabled := isLoading s;
           submitDisabled := isLoading s || negb (truthy (prompt s));
           submitLabel := if isLoading s then "Generating..." else "Generate";
           submitSparkles := negb (isLoading s) |}
  end.

(** The files an observer saw read. *)
Definition fileReads {A : Type} (w : world) (p : prog A) : list File :=
  flat_map (fun o => match o with ObsRead f => [f] | _ => [] end)
           (trace w p).

(** The console output an observer saw. *)
Definition consoleOutput {A : Type} (w : world) (p : prog A)
  : list (list value) :=
  flat_map (fun o => match o with ObsConsole args => [args] | _ => [] end)
           (trace w p).

Definition dotPng : File :=
  {| file_type := "image/png"; file_name := "dot.png";
     file_bytes := ["M"%byte; "a"%byte; "n"%byte; x00; xff] |}.

(** ** The handlers as they overlap *)

(** The initial values of the [useState] cells. *)
Definition initialApp : App :=
  {| originalImage := None; editedImage := None; prompt := "";
     isLoading := false; error := None |}.

(** A second reading of the two asynchronous handlers of [App]: a
    handler is a thread of setter calls, and each setter acts on the
    state that is current when it runs.  A thread runs without
    interruption up to its next read or network call; other handlers
    run while it waits. *)
Module Async.

Inductive setter : Type :=
| SetOriginalImage (v : option UploadedFile)
| SetEditedImage (v : option string)
| SetPrompt (v : string)
| SetIsLoading (v : bool)
| SetError (v : option value).

Definition set (a : setter) (s : App) : App :=
  match a with
  | SetOriginalImage v => setOriginalImage v s
  | SetEditedImage v => setEditedImage v s
  | SetPrompt v => setPrompt v s
  | SetIsLoading v => setIsLoading v s
  | SetError v => setError v s
  end.

Inductive thread : Type :=
| Finished
| Step (a : setter) (next : thread)
| Log (args : list value) (next : thread)
| AwaitGenerate (request : Request) (k : outcome -> thread)
| AwaitRead (file : File) (k : readOutcome -> thread).

(** [await p], then [k] on what [p] settles to. *)
Fixpoint spawn {A : Type} (p : prog A) (k : A -> thread) : thread :=
  match p with
  | Ret a => k a
  | Vis e c =>
      match e in event X return (X -> thread) -> thread with
      | GenerateContent request => fun c' => AwaitGenerate request c'
      | ReadAsDataURL file => fun c' => AwaitRead file c'
      | ConsoleError args => fun c' => Log args (c' tt)
      end (fun x => spawn (c x) k)
  end.

(** [handleImageSelect]: the handler reads no cell. *)
Definition handleImageSelect (file : File) : thread :=
  Step (SetIsLoading true)
    (Step (SetError None)
       (Step (SetEditedImage None)
          (spawn (fileToUploadedFile file)
             (fun r =>
                match r with
                | Resolved uploadedFile =>
                    Step (SetOriginalImage (Some uploadedFile))
                      (Step (SetIsLoading false) Finished)
                | Rejected e =>
                    Step (SetError (Some (JString readFailedMessage)))
                      (Log [e] (Step (SetIsLoading false) Finished))
                end)))).

(** [handleSubmit]: [s] is the state of the render the handler belongs
    to; the handler reads [originalImage] and [prompt] from it. *)
Definition handleSubmit (s : App) : thread :=
  match originalImage s with
  | None => Step (SetError (Some (JString validationMessage))) Finished
  | Some image =>
      if negb (truthy (prompt s))
      then Step (SetError (Some (JString validationMessage))) Finished
      else
        Step (SetIsLoading true)
          (Step (SetError None)
             (Step (SetEditedImage None)
                (spawn (editImageWithGemini image (prompt s))
                   (fun r =>
                      match r with
                      | Resolved result =>
                          Step (SetEditedImage (Some result))
                            (Step (SetIsLoading false) Finished)
                      | Rejected e =>
                          Step (SetError (Some e))
                            (Log [e] (Step (SetIsLoading false) Finished))
                      end))))
  end.

(** [handleFileChange] *)
Definition handleFileChange (files : option (list File)) : thread :=
  match files with
  | None => Finished
  | Some fs =>
      match index fs 0 with
      | Some file => handleImageSelect file
      | None => Finished
      end
  end.

(** A thread run on its own, the world answering at once. *)
Fixpoint complete (w : world) (t : thread) (s : App) : list observed * App :=
  match t with
  | Finished => ([], s)
  | Step a next => complete w next (set a s)
  | Log args next =>
      let (tr, s') := complete w next s in (ObsConsole args :: tr, s')
  | AwaitGenerate request k =>
      let (tr, s') := complete w (k (generateContent w request)) s in
      (ObsGenerate request :: tr, s')
  | AwaitRead file k =>
      let (tr, s') := complete w (k (readFile w file)) s in
      (ObsRead file :: tr, s')
  end.

(** A thread that waits for the outside. *)
Inductive blocked : Type :=
| OnGenerate (request : Request) (k : outcome -> thread)
| OnRead (file : File) (k : readOutcome -> thread).

(** Run a thread up to its next wait; console output is not kept. *)
Fixpoint advance (t : thread) (s : App) : App * option blocked :=
  match t with
  | Finished => (s, None)
  | Step a next => advance next (set a s)
  | Log _ next => advance next s
  | AwaitGenerate request k => (s, Some (OnGenerate request k))
  | AwaitRead file k => (s, Some (OnRead file k))
  end.

(** The state and the threads that wait. *)
Definition config : Type := (App * list blocked)%type.

Definition launch (t : thread) (s : App) (pending : list blocked) : config :=
  let (s', b) := advance t s in
  (s', match b with
       | Some b => b :: pending
       | None => pending
       end).

(** What can happen next: the user acts on what the screen offers, or
    a pending read or network call completes, with any outcome. *)
Inductive step : config -> config -> Prop :=
| ClickGenerate (s : App) (pending : list blocked) (e : editor) :
    render s = Editor e -> submitDisabled e = false ->
    step (s, pending) (launch (handleSubmit s) s pending)
| ChooseFiles (s : App) (pending : list blocked) (files : option (list File)) :
    step (s, pending) (launch (handleFileChange files) s pending)
| TypePrompt (s : App) (pending : list blocked) (e : editor) (v : string) :
    render s = Editor e -> promptDisabled e = false ->
    step (s, pending) (setPrompt v s, pending)
| GenerateSettles (s : App) (before after : list blocked)
    (request : Request) (k : outcome -> thread) (o : outcome) :
    step (s, (before ++ OnGenerate request k :: after)%list)
         (launch (k o) s (before ++ after)%list)
| ReadSettles (s : App) (before after : list blocked)
    (file : File) (k : readOutcome -> thread) (o : readOutcome) :
    step (s, (before ++ OnRead file k :: after)%list)
         (launch (k o) s (before ++ after)%list).

Inductive steps : config -> config -> Prop :=
| steps_refl (c : config) : steps c c
| steps_step (c1 c2 c3 : config) : step c1 c2 -> steps c2 c3 -> steps c1 c3.

Definition reachable (c : config) : Prop := steps (initialApp, []) c.

(** What a thread may leave in the error cell. *)
Definition errorOk (v : option value) : Prop :=
  v = None \/ exists msg, v = Some (JString msg) /\ msg <> validationMessage.

(** [tidy c t]: on every path, [t] stores only [errorOk] values in the
    error cell, and its last segment ends with the loading flag set to
    false; [c] tells that the flag is known to be false where [t]
    starts. *)
Fixpoint tidy (c : bool) (t : thread) : Prop :=
  match t with
  | Finished => c = true
  | Step a next =>
      match a with
      | SetIsLoading v => tidy (negb v) next
      | SetError v => errorOk v /\ tidy c next
      | _ => tidy c next
      end
  | Log _ next => tidy c next
  | AwaitGenerate _ k => forall o, tidy false (k o)
  | AwaitRead _ k => forall o, tidy false (k o)
  end.

Definition tidyBlocked (b : blocked) : Prop :=
  match b with
  | OnGenerate _ k => forall o, tidy false (k o)
  | OnRead _ k => forall o, tidy false (k o)
  end.

(** What every step keeps. *)
Definition invariant (cfg : config) : Prop :=
  errorOk (error (fst cfg)) /\
  (snd cfg = [] -> isLoading (fst cfg) = false) /\
  Forall tidyBlocked (snd cfg).

End Async.

(** * Properties *)

(** ** Running programs *)

Lemma run_bind {A B : Type} (w : world) (p : prog A) (f : A -> prog B) :
  run w (bind p f) =
  ((fst (run w p) ++ fst (run w (f (snd (run w p)))))%list,
   snd (run w (f (snd (run w p))))).
Proof.
  induction p as [a | X e k IH]; simpl.
  - destruct (run w (f a)); reflexivity.
  - destruct (answer w e) as [x o]. rewrite IH.
    destruct (run w (k x)); simpl.
    destruct (run w (f a)); reflexivity.
Qed.

Lemma result_bind {A B : Type} (w : world) (p : prog A) (f : A -> prog B) :
  result w (bind p f) = result w (f (result w p)).
Proof. unfold result. rewrite run_bind. reflexivity. Qed.

Lemma trace_bind {A B : Type} (w : world) (p : prog A) (f : A -> prog B) :
  trace w (bind p f) = (trace w p ++ trace w (f (result w p)))%list.
Proof. unfold trace, result. rewrite run_bind. reflexivity. Qed.

(** ** Small checks against the source *)

Example split_three : split comma "a,b,c" = ["a"; "b"; "c"].
Proof. reflexivity. Qed.

Example split_none : split comma "abc" = ["abc"].
Proof. reflexivity. Qed.

Example split_empty : split comma "" = [""].
Proof. reflexivity. Qed.

Example split_trailing : split comma "a," = ["a"; ""].
Proof. reflexivity. Qed.

Example base64Data_catJpg : base64Data catJpg = Some "AAAA".
Proof. reflexivity. Qed.

Example encode_Man : base64_encode ["M"%byte; "a"%byte; "n"%byte] = "TWFu".
Proof. reflexivity. Qed.

Example encode_Ma : base64_encode ["M"%byte; "a"%byte] = "TWE=".
Proof. reflexivity. Qed.

Example encode_M : base64_encode ["M"%byte] = "TQ==".
Proof. reflexivity. Qed.

Example decode_TWE : base64_decode "TWE=" = Some ["M"%byte; "a"%byte].
Proof. reflexivity. Qed.

Example decode_zero : base64_decode "AAAA" = Some [x00; x00; x00].
Proof. reflexivity. Qed.

Example decode_bad : base64_decode "TW=u" = None.
Proof. reflexivity. Qed.

(** ** The data-URL encoder *)

Section Base64.

Ltac each_sextet s :=
  destruct s as [[[[[b5 b4] b3] b2] b1] b0];
  destruct b5, b4, b3, b2, b1, b0.

Lemma digit_value_digit (s : sextet) : digit_value (digit s) = Some s.
Proof. each_sextet s; reflexivity. Qed.

Lemma digit_not_pad (s : sextet) : Ascii.eqb (digit s) pad = false.
Proof. each_sextet s; reflexivity. Qed.

Lemma digit_not_comma (s : sextet) : Ascii.eqb (digit s) comma = false.
Proof. each_sextet s; reflexivity. Qed.

Lemma decode3_encode3 (x y z : byte) :
  (let '(s1, s2, s3, s4) := encode3 x y z in decode3 s1 s2 s3 s4) = (x, y, z).
Proof.
  unfold encode3.
  pose proof (Byte.of_bits_to_bits x) as Hx.
  pose proof (Byte.of_bits_to_bits y) as Hy.
  pose proof (Byte.of_bits_to_bits z) as Hz.
  destruct (Byte.to_bits x) as (x0 & x1 & x2 & x3 & x4 & x5 & x6 & x7).
  destruct (Byte.to_bits y) as (y0 & y1 & y2 & y3 & y4 & y5 & y6 & y7).
  destruct (Byte.to_bits z) as (z0 & z1 & z2 & z3 & z4 & z5 & z6 & z7).
  subst x y z. reflexivity.
Qed.

Lemma decode_quad_digits (s1 s2 s3 s4 : sextet) :
  decode_quad (digit s1) (digit s2) (digit s3) (digit s4)
  = Some (decode3 s1 s2 s3 s4).
Proof. unfold decode_quad. rewrite !digit_value_digit. reflexivity. Qed.

End Base64.

Section Base64RoundTrip.

Lemma list_ind3 {A : Type} (P : list A -> Prop) :
  P [] ->
  (forall x, P [x]) ->
  (forall x y, P [x; y]) ->
  (forall x y z rest, P rest -> P (x :: y :: z :: rest)) ->
  forall l, P l.
Proof.
  intros H0 H1 H2 H3 l.
  enough (P l /\ (forall x, P (x :: l)) /\ (forall x y, P (x :: y :: l)))
    as [H _] by exact H.
  induction l as [| a l (IHa & IHb & IHc)].
  - repeat split; auto.
  - repeat split; auto.
Qed.

Lemma encode3_one (x : byte) :
  exists s1 s2, encode3 x x00 x00 = (s1, s2, zero_sextet, zero_sextet).
Proof.
  unfold encode3.
  destruct (Byte.to_bits x) as (x0 & x1 & x2 & x3 & x4 & x5 & x6 & x7).
  do 2 eexists. reflexivity.
Qed.

Lemma encode3_two (x y : byte) :
  exists s1 s2 s3, encode3 x y x00 = (s1, s2, s3, zero_sextet).
Proof.
  unfold encode3.
  destruct (Byte.to_bits x) as (x0 & x1 & x2 & x3 & x4 & x5 & x6 & x7).
  destruct (Byte.to_bits y) as (y0 & y1 & y2 & y3 & y4 & y5 & y6 & y7).
  do 3 eexists. reflexivity.
Qed.

Lemma base64_encode_three (x y z : byte) (rest : list byte) :
  base64_encode (x :: y :: z :: rest) =
  let '(s1, s2, s3, s4) := encode3 x y z in
  String (digit s1)
    (String (digit s2)
       (String (digit s3) (String (digit s4) (base64_encode rest)))).
Proof. reflexivity. Qed.

Lemma base64_decode_quad (c1 c2 c3 c4 : ascii) (rest : string) :
  Ascii.eqb c4 pad = false ->
  base64_decode (String c1 (String c2 (String c3 (String c4 rest)))) =
  match decode_quad c1 c2 c3 c4, base64_decode rest with
  | Some (x, y, z), Some bytes => Some (x :: y :: z :: bytes)
  | _, _ => None
  end.
Proof. intros H. cbn [base64_decode]. rewrite H. reflexivity. Qed.

Lemma base64_round_trip (bytes : list byte) :
  base64_decode (base64_encode bytes) = Some bytes.
Proof.
  induction bytes as [| x | x y | x y z rest IH] using list_ind3.
  - reflexivity.
  - destruct (encode3_one x) as (s1 & s2 & E).
    pose proof (decode3_encode3 x x00 x00) as D. rewrite E in D.
    cbn [base64_encode]. rewrite E. cbn [base64_decode].
    rewrite Ascii.eqb_refl, decode_quad_digits, D. reflexivity.
  - destruct (encode3_two x y) as (s1 & s2 & s3 & E).
    pose proof (decode3_encode3 x y x00) as D. rewrite E in D.
    cbn [base64_encode]. rewrite E. cbn [base64_decode].
    rewrite Ascii.eqb_refl, digit_not_pad, decode_quad_digits, D.
    reflexivity.
  - rewrite base64_encode_three.
    pose proof (decode3_encode3 x y z) as D.
    destruct (encode3 x y z) as [[[s1 s2] s3] s4].
    rewrite base64_decode_quad by apply digit_not_pad.
    rewrite decode_quad_digits, D, IH. reflexivity.
Qed.

Lemma base64_encode_commaFree (bytes : list byte) :
  commaFree (base64_encode bytes).
Proof.
  unfold commaFree.
  induction bytes as [| x | x y | x y z rest IH] using list_ind3.
  - reflexivity.
  - cbn [base64_encode]. destruct (encode3 x x00 x00) as [[[s1 s2] s3] s4].
    cbn [occurrences]. rewrite !digit_not_comma. reflexivity.
  - cbn [base64_encode]. destruct (encode3 x y x00) as [[[s1 s2] s3] s4].
    cbn [occurrences]. rewrite !digit_not_comma. reflexivity.
  - rewrite base64_encode_three. destruct (encode3 x y z) as [[[s1 s2] s3] s4].
    cbn [occurrences]. rewrite !digit_not_comma, IH. reflexivity.
Qed.

End Base64RoundTrip.

(** ** Splitting on a separator *)

Section Split.

Variable sep : ascii.

Lemma occurrences_app (a b : string) :
  occurrences sep (a ++ b) = occurrences sep a + occurrences sep b.
Proof.
  induction a as [| c a IH]; simpl.
  - reflexivity.
  - rewrite IH. lia.
Qed.

Lemma split_not_nil (s : string) : split sep s <> [].
Proof.
  induction s as [| c s IH]; simpl.
  - discriminate.
  - destruct (Ascii.eqb c sep); [discriminate |].
    destruct (split sep s); discriminate.
Qed.

Lemma split_length (s : string) :
  length (split sep s) = S (occurrences sep s).
Proof.
  induction s as [| c s IH]; simpl.
  - reflexivity.
  - destruct (Ascii.eqb c sep); simpl.
    + rewrite IH. reflexivity.
    + destruct (split sep s) as [| seg segs] eqn:E.
      * exfalso. exact (split_not_nil s E).
      * simpl in *. exact IH.
Qed.

Lemma split_free (s : string) :
  occurrences sep s = 0 -> split sep s = [s].
Proof.
  induction s as [| c s IH]; simpl; intros H.
  - reflexivity.
  - destruct (Ascii.eqb c sep); [discriminate |].
    rewrite IH by exact H. reflexivity.
Qed.

Lemma split_app (pre rest : string) :
  occurrences sep pre = 0 ->
  split sep (pre ++ String sep rest) = pre :: split sep rest.
Proof.
  induction pre as [| c pre IH]; simpl; intros H.
  - rewrite Ascii.eqb_refl. reflexivity.
  - destruct (Ascii.eqb c sep); [discriminate |].
    rewrite IH by exact H. reflexivity.
Qed.

Lemma split_segments_free (s : string) :
  Forall (fun seg => occurrences sep seg = 0) (split sep s).
Proof.
  induction s as [| c s IH]; simpl.
  - constructor; [reflexivity | constructor].
  - destruct (Ascii.eqb c sep) eqn:E.
    + constructor; [reflexivity | exact IH].
    + destruct (split sep s) as [| seg segs].
      * constructor; [simpl; rewrite E; reflexivity | constructor].
      * inversion IH as [| ? ? Hseg Hsegs]; subst.
        constructor; [simpl; rewrite E; exact Hseg | exact Hsegs].
Qed.

Lemma occurrences_cut (s : string) :
  0 < occurrences sep s ->
  exists pre rest,
    s = pre ++ String sep rest /\ occurrences sep pre = 0 /\
    occurrences sep s = S (occurrences sep rest).
Proof.
  induction s as [| c s IH]; simpl; intros H.
  - lia.
  - destruct (Ascii.eqb c sep) eqn:E.
    + apply Ascii.eqb_eq in E. subst c.
      exists EmptyString, s. repeat split; reflexivity.
    + destruct (IH H) as (pre & rest & Hs & Hpre & Hn).
      exists (String c pre), rest. simpl. rewrite E.
      repeat split; [rewrite Hs; reflexivity | exact Hpre | exact Hn].
Qed.

End Split.

(** ** The stripping step *)

Lemma base64Data_no_comma (image : UploadedFile) :
  commaFree (base64 image) -> base64Data image = None.
Proof.
  unfold commaFree, base64Data, index. intros H.
  rewrite split_free by exact H. reflexivity.
Qed.

Lemma base64Data_behind_prefix (image : UploadedFile) (pre rest : string) :
  base64 image = pre ++ "," ++ rest -> commaFree pre ->
  base64Data image = hd_error (split comma rest).
Proof.
  unfold commaFree, base64Data, index. intros E H.
  rewrite E. change ("," ++ rest) with (String comma rest).
  rewrite split_app by exact H. simpl.
  destruct (split comma rest); reflexivity.
Qed.

Lemma base64Data_one_comma (image : UploadedFile) (pre raw : string) :
  base64 image = pre ++ "," ++ raw -> commaFree pre -> commaFree raw ->
  base64Data image = Some raw.
Proof.
  intros E Hpre Hraw.
  rewrite (base64Data_behind_prefix image pre raw E Hpre).
  unfold commaFree in Hraw. rewrite split_free by exact Hraw. reflexivity.
Qed.

Lemma base64Data_second_comma (image : UploadedFile) (pre seg rest : string) :
  base64 image = pre ++ "," ++ seg ++ "," ++ rest ->
  commaFree pre -> commaFree seg ->
  base64Data image = Some seg.
Proof.
  intros E Hpre Hseg.
  rewrite (base64Data_behind_prefix image pre _ E Hpre).
  change ("," ++ rest) with (String comma rest).
  unfold commaFree in Hseg. rewrite split_app by exact Hseg. reflexivity.
Qed.

Lemma faithfulStrip_iff_one_comma (image : UploadedFile) :
  faithfulStrip image <-> occurrences comma (base64 image) = 1.
Proof.
  split.
  - intros (pre & raw & E & Hpre & Hdata).
    rewrite (base64Data_behind_prefix image pre raw E Hpre) in Hdata.
    pose proof (split_segments_free comma raw) as Hfree.
    destruct (split comma raw) as [| seg segs]; [discriminate |].
    simpl in Hdata. injection Hdata as ->.
    inversion Hfree as [| ? ? Hraw _]; subst.
    rewrite E. change ("," ++ raw) with (String comma raw).
    rewrite occurrences_app. unfold commaFree in Hpre. rewrite Hpre.
    simpl. rewrite Hraw. reflexivity.
  - intros H.
    destruct (occurrences_cut comma (base64 image)) as (pre & raw & E & Hpre & Hn);
      [lia |].
    exists pre, raw. repeat split.
    + exact E.
    + exact Hpre.
    + apply (base64Data_one_comma image pre raw E Hpre).
      unfold commaFree. lia.
Qed.

(** ** The adapter *)

Section Adapter.

Variable w : world.
Variable image : UploadedFile.
Variable instruction : string.

Lemma run_editImageWithGemini :
  run w (editImageWithGemini image instruction) =
  match generateContent w (request image instruction) with
  | Returned response =>
      match findImage (responseParts response) with
      | Some url => ([ObsGenerate (request image instruction)], Resolved url)
      | None =>
          ([ObsGenerate (request image instruction);
            ObsConsole [JString "Error editing image with Gemini:";
                        JError noImageMessage]],
           Rejected (JString (failedPrefix ++ noImageMessage)))
      end
  | Threw v =>
      ([ObsGenerate (request image instruction);
        ObsConsole [JString "Error editing image with Gemini:"; v]],
       match v with
       | JError message => Rejected (JString (failedPrefix ++ message))
       | _ => Rejected (JString unknownMessage)
       end)
  end.
Proof.
  unfold editImageWithGemini, tryBlock, catchBlock, trigger.
  cbn [bind run answer].
  destruct (generateContent w (request image instruction)) as [response | v].
  - destruct (findImage (responseParts response)); reflexivity.
  - destruct v; reflexivity.
Qed.

Lemma networkCalls_editImageWithGemini :
  networkCalls w (editImageWithGemini image instruction)
  = [request image instruction].
Proof.
  unfold networkCalls, trace. rewrite run_editImageWithGemini.
  destruct (generateContent w (request image instruction)) as [response | v].
  - destruct (findImage (responseParts response)); reflexivity.
  - reflexivity.
Qed.

Lemma rejected_is_string (reason : value) :
  result w (editImageWithGemini image instruction) = Rejected reason ->
  exists msg, reason = JString msg /\
    ((exists cause, msg = failedPrefix ++ cause) \/ msg = unknownMessage).
Proof.
  unfold result. rewrite run_editImageWithGemini.
  destruct (generateContent w (request image instruction)) as [response | v]; simpl.
  - destruct (findImage (responseParts response)); simpl; intros H.
    + discriminate.
    + injection H as <-. eexists. split; [reflexivity |]. left. eauto.
  - destruct v; simpl; intros H; injection H as <-;
      eexists; (split; [reflexivity |]); solve [left; eauto | right; reflexivity].
Qed.

End Adapter.

Lemma findImage_first (pre post : list Part) (p : Part) (blob : Blob) :
  noInlineData pre -> inlineData p = Some blob ->
  findImage (pre ++ p :: post) = Some (dataUrl (blobMimeType blob) (data blob)).
Proof.
  intros Hpre Hp. induction Hpre as [| q pre Hq _ IH]; simpl.
  - rewrite Hp. reflexivity.
  - rewrite Hq. exact IH.
Qed.

Lemma findImage_none (ps : list Part) :
  noInlineData ps -> findImage ps = None.
Proof.
  intros H. induction H as [| q ps Hq _ IH]; simpl.
  - reflexivity.
  - rewrite Hq. exact IH.
Qed.

Lemma first_inline_part (ps : list Part) :
  existsb hasInlineData ps = true ->
  exists pre p blob post,
    ps = (pre ++ p :: post)%list /\ noInlineData pre /\ inlineData p = Some blob.
Proof.
  induction ps as [| q ps IH]; simpl; intros H.
  - discriminate.
  - unfold hasInlineData in H at 1.
    destruct (inlineData q) as [blob |] eqn:E.
    + exists [], q, blob, ps. repeat split; [constructor | exact E].
    + destruct (IH H) as (pre & p & blob & post & Hps & Hpre & Hp).
      exists (q :: pre), p, blob, post. subst ps.
      repeat split; [constructor; assumption | exact Hp].
Qed.

Lemma responseParts_noInlineDataField (response : GenerateContentResponse) :
  noInlineDataField response -> findImage (responseParts response) = None.
Proof.
  unfold noInlineDataField, firstCandidateParts, responseParts, index.
  destruct (candidates response) as [[| c cs] |]; simpl; try reflexivity.
  destruct (content c) as [ct |]; try reflexivity.
  destruct (parts ct) as [ps |]; try reflexivity.
  apply findImage_none.
Qed.

Lemma append_empty (s : string) : s ++ "" = s.
Proof.
  induction s as [| c s IH]; simpl; [reflexivity | rewrite IH; reflexivity].
Qed.

Lemma contains_suffix (p s : string) : contains (p ++ s) s.
Proof. exists p, EmptyString. rewrite append_empty. reflexivity. Qed.


(** ** Claims about the adapter's answer *)

(** C1, as the spec states it, fails: a part whose inline data is empty
    carries no image content, yet standing before the image part it is
    the part the adapter builds its answer from. *)
Lemma first_part_with_image_content_does_not_win :
  ~ (forall (w : world) (image : UploadedFile) (instruction : string)
            (pre post : list Part) (others : list Candidate) (p : Part)
            (payload mediaType : string),
        Forall (fun q => carriesImageContent q = false) pre ->
        inlineData p = Some {| data := Some payload;
                               blobMimeType := Some mediaType |} ->
        carriesImageContent p = true ->
        generateContent w (request image instruction)
          = Returned (responseWith (pre ++ p :: post) others) ->
        result w (editImageWithGemini image instruction)
          = Resolved ("data:" ++ mediaType ++ ";base64," ++ payload)).
Proof.
  intros H.
  specialize (H (browser (always (Returned (responseWith
                   [emptyBlobPart; imagePart "BBBB" "image/png"] []))))
                catJpg "make it red" [emptyBlobPart] [] []
                (imagePart "BBBB" "image/png") "BBBB" "image/png").
  assert (E : result (browser (always (Returned (responseWith
                        [emptyBlobPart; imagePart "BBBB" "image/png"] []))))
                     (editImageWithGemini catJpg "make it red")
              = Resolved "data:undefined;base64,undefined") by reflexivity.
  rewrite E in H.
  assert (Hwrong : @Resolved string "data:undefined;base64,undefined"
                   = Resolved "data:image/png;base64,BBBB").
  { apply H; [repeat constructor | reflexivity | reflexivity | reflexivity]. }
  discriminate Hwrong.
Qed.

(** C1, amended: when the parts of the first candidate hold at least one
    part with an [inlineData] field, the adapter resolves to the string
    made of ["data:"], the media type of the first such part,
    [";base64,"] and its data, with the word [undefined] for a field
    that part lacks; the parts before it have no such field, and neither
    the parts behind it, nor any text, nor the other candidates take
    part in the result. *)
Theorem first_image_part_wins
  (w : world) (image : UploadedFile) (instruction : string)
  (ps : list Part) (others : list Candidate) :
  generateContent w (request image instruction)
    = Returned (responseWith ps others) ->
  existsb hasInlineData ps = true ->
  exists pre p blob post,
    ps = (pre ++ p :: post)%list /\ noInlineData pre /\
    inlineData p = Some blob /\
    result w (editImageWithGemini image instruction)
      = Resolved ("data:"
                  ++ match blobMimeType blob with
                     | Some mediaType => mediaType
                     | None => "undefined"
                     end
                  ++ ";base64,"
                  ++ match data blob with
                     | Some payload => payload
                     | None => "undefined"
                     end).
Proof.
  intros Hserved Hsome.
  destruct (first_inline_part ps Hsome) as (pre & p & blob & post & E & Hpre & Hp).
  exists pre, p, blob, post. repeat split; try assumption.
  unfold result. rewrite run_editImageWithGemini, Hserved.
  unfold responseWith, responseParts, index. cbn [candidates nth_error content parts].
  rewrite E, (findImage_first pre post p blob Hpre Hp). reflexivity.
Qed.

Lemma first_image_part_wins_witness :
  let ps := [textPart "Here is your picture.";
             imagePart "BBBB" "image/png";
             imagePart "CCCC" "image/jpeg"] in
  let others := [ {| content := Some {| parts := Some [imagePart "DDDD" "image/gif"] |} |} ] in
  let w := browser (always (Returned (responseWith ps others))) in
  exists pre p blob post,
    ps = (pre ++ p :: post)%list /\ noInlineData pre /\
    inlineData p = Some blob /\
    result w (editImageWithGemini catJpg "make it red")
      = Resolved ("data:"
                  ++ match blobMimeType blob with
                     | Some mediaType => mediaType
                     | None => "undefined"
                     end
                  ++ ";base64,"
                  ++ match data blob with
                     | Some payload => payload
                     | None => "undefined"
                     end).
Proof.
  intros ps others w.
  apply (first_image_part_wins w catJpg "make it red" ps others);
    reflexivity.
Defined.

(** C2: the string the adapter resolves to is ["data:"], the selected
    part's own media type, [";base64,"] and the part's data, whatever the
    media type of the input; the cat scenario of the spec resolves to
    ["data:image/png;base64,BBBB"]. *)
Theorem answer_carries_response_media_type :
  (forall (w : world) (image : UploadedFile) (instruction : string)
          (pre post : list Part) (others : list Candidate)
          (payload mediaType : string) (t : option string),
      noInlineData pre ->
      generateContent w (request image instruction)
        = Returned (responseWith
            (pre ++ {| inlineData := Some {| data := Some payload;
                                             blobMimeType := Some mediaType |};
                       text := t |} :: post) others) ->
      result w (editImageWithGemini image instruction)
        = Resolved ("data:" ++ mediaType ++ ";base64," ++ payload))
  /\
  (forall readFile : File -> readOutcome,
      result {| generateContent :=
                  always (Returned (responseWith [imagePart "BBBB" "image/png"] []));
                readFile := readFile |}
             (editImageWithGemini catJpg "make it red")
        = Resolved "data:image/png;base64,BBBB").
Proof.
  split.
  - intros w image instruction pre post others payload mediaType t Hpre Hserved.
    unfold result. rewrite run_editImageWithGemini, Hserved.
    unfold responseWith, responseParts, index.
    cbn [candidates nth_error content parts].
    erewrite findImage_first by (try exact Hpre; reflexivity).
    reflexivity.
  - intros readFile. reflexivity.
Qed.

Lemma answer_carries_response_media_type_witness :
  result (browser (always (Returned (responseWith
            [textPart "done"; imagePart "BBBB" "image/png"] []))))
         (editImageWithGemini catJpg "make it red")
  = Resolved "data:image/png;base64,BBBB".
Proof.
  apply (proj1 answer_carries_response_media_type
           (browser (always (Returned (responseWith
              [textPart "done"; imagePart "BBBB" "image/png"] []))))
           catJpg "make it red" [textPart "done"] [] [] "BBBB" "image/png" None).
  - repeat constructor.
  - reflexivity.
Defined.

(** C6, as the spec states it, fails: with a text part and a part whose
    inline data is empty, no part carries image content, yet the adapter
    resolves. *)
Lemma no_image_content_does_not_reject :
  ~ (forall (w : world) (image : UploadedFile) (instruction : string)
            (response : GenerateContentResponse),
        generateContent w (request image instruction) = Returned response ->
        noImageContent response ->
        exists msg,
          result w (editImageWithGemini image instruction)
            = Rejected (JString msg) /\
          contains msg "No image was generated in the API response.").
Proof.
  intros H.
  destruct (H (browser (always (Returned (responseWith
                 [textPart "I cannot do that."; emptyBlobPart] []))))
              catJpg "make it red"
              (responseWith [textPart "I cannot do that."; emptyBlobPart] [])
              eq_refl) as (msg & Hrej & _).
  - repeat constructor.
  - assert (E : result (browser (always (Returned (responseWith
                          [textPart "I cannot do that."; emptyBlobPart] []))))
                       (editImageWithGemini catJpg "make it red")
                = Resolved "data:undefined;base64,undefined") by reflexivity.
    rewrite E in Hrej. discriminate Hrej.
Qed.

(** C6, amended: when no part of the first candidate has an [inlineData]
    field (no candidates, no content, no parts, or parts without the
    field), the adapter rejects with the failure prefix followed by the
    no-image description. *)
Theorem no_image_rejects
  (w : world) (image : UploadedFile) (instruction : string)
  (response : GenerateContentResponse) :
  generateContent w (request image instruction) = Returned response ->
  noInlineDataField response ->
  exists msg,
    result w (editImageWithGemini image instruction) = Rejected (JString msg) /\
    msg = "Failed to generate image: No image was generated in the API response." /\
    contains msg "No image was generated in the API response.".
Proof.
  intros Hserved Hnone.
  exists (failedPrefix ++ noImageMessage). repeat split.
  - unfold result. rewrite run_editImageWithGemini, Hserved.
    rewrite (responseParts_noInlineDataField response Hnone). reflexivity.
  - apply (contains_suffix failedPrefix noImageMessage).
Qed.

Lemma no_image_rejects_witness :
  (exists msg,
      result (browser (always (Returned {| candidates := None |})))
             (editImageWithGemini catJpg "make it red") = Rejected (JString msg) /\
      msg = "Failed to generate image: No image was generated in the API response." /\
      contains msg "No image was generated in the API response.")
  /\
  (exists msg,
      result (browser (always (Returned
                (responseWith [textPart "I cannot do that."] []))))
             (editImageWithGemini catJpg "make it red") = Rejected (JString msg) /\
      msg = "Failed to generate image: No image was generated in the API response." /\
      contains msg "No image was generated in the API response.").
Proof.
  split.
  - apply (no_image_rejects
             (browser (always (Returned {| candidates := None |})))
             catJpg "make it red" {| candidates := None |}).
    + reflexivity.
    + exact I.
  - apply (no_image_rejects
             (browser (always (Returned
                (responseWith [textPart "I cannot do that."] []))))
             catJpg "make it red" (responseWith [textPart "I cannot do that."] [])).
    + reflexivity.
    + repeat constructor.
Defined.

(** C5: every failure inside the adapter ends in a rejection with a
    string: the fixed prefix followed by the cause's message when the
    cause is an [Error], the no-image message on the no-image condition,
    the fixed generic message for any other thrown value; nothing but a
    string is ever the rejection value. *)
Theorem failures_surface_as_strings
  (w : world) (image : UploadedFile) (instruction : string) :
  (forall message,
      generateContent w (request image instruction) = Threw (JError message) ->
      result w (editImageWithGemini image instruction)
        = Rejected (JString (failedPrefix ++ message)) /\
      contains (failedPrefix ++ message) message)
  /\
  (forall v,
      generateContent w (request image instruction) = Threw v ->
      instanceofError v = false ->
      result w (editImageWithGemini image instruction)
        = Rejected (JString unknownMessage))
  /\
  (forall response,
      generateContent w (request image instruction) = Returned response ->
      existsb hasInlineData (responseParts response) = false ->
      result w (editImageWithGemini image instruction)
        = Rejected (JString (failedPrefix ++ noImageMessage)))
  /\
  (forall reason,
      result w (editImageWithGemini image instruction) = Rejected reason ->
      isString reason = true).
Proof.
  split; [| split; [| split]].
  - intros message Hserved. split.
    + unfold result. rewrite run_editImageWithGemini, Hserved. reflexivity.
    + apply contains_suffix.
  - intros v Hserved Hv. unfold result.
    rewrite run_editImageWithGemini, Hserved.
    destruct v; try discriminate; reflexivity.
  - intros response Hserved Hnone. unfold result.
    rewrite run_editImageWithGemini, Hserved, findImage_none; [reflexivity |].
    induction (responseParts response) as [| q ps IH]; [constructor |].
    simpl in Hnone. apply orb_false_iff in Hnone as [Hq Hps].
    constructor; [| exact (IH Hps)].
    unfold hasInlineData in Hq. destruct (inlineData q); [discriminate | reflexivity].
  - intros reason Hrej.
    destruct (rejected_is_string w image instruction reason Hrej) as (msg & -> & _).
    reflexivity.
Qed.

Lemma failures_surface_as_strings_witness :
  let refused := browser (always (Threw (JError "connection refused"))) in
  let odd := browser (always (Threw (JNumber 503))) in
  result refused (editImageWithGemini catJpg "make it red")
    = Rejected (JString "Failed to generate image: connection refused")
  /\
  result odd (editImageWithGemini catJpg "make it red")
    = Rejected (JString "An unknown error occurred while generating the image.").
Proof.
  intros refused odd. split.
  - apply (proj1 (failures_surface_as_strings refused catJpg "make it red")
             "connection refused"). reflexivity.
  - apply (proj1 (proj2 (failures_surface_as_strings odd catJpg "make it red"))
             (JNumber 503)); reflexivity.
Defined.

(** ** The submit handler *)

Section Submit.

Variable w : world.

Lemma truthy_nonempty (t : string) : t <> "" -> truthy t = true.
Proof. destruct t; [contradiction | reflexivity]. Qed.

Lemma handleSubmit_invalid (s : App) :
  originalImage s = None \/ prompt s = "" ->
  handleSubmit s = Ret (setError (Some (JString validationMessage)) s).
Proof.
  unfold handleSubmit. intros [H | H]; rewrite H.
  - reflexivity.
  - destruct (originalImage s); reflexivity.
Qed.

Lemma result_handleSubmit_valid (s : App) (image : UploadedFile) :
  originalImage s = Some image -> prompt s <> "" ->
  result w (handleSubmit s) =
  match result w (editImageWithGemini image (prompt s)) with
  | Resolved url =>
      {| originalImage := Some image; editedImage := Some url;
         prompt := prompt s; isLoading := false; error := None |}
  | Rejected e =>
      {| originalImage := Some image; editedImage := None;
         prompt := prompt s; isLoading := false; error := Some e |}
  end.
Proof.
  intros Himage Hprompt. unfold handleSubmit.
  rewrite Himage, (truthy_nonempty _ Hprompt). cbn [negb].
  rewrite result_bind. cbn [prompt setEditedImage setError setIsLoading].
  destruct (result w (editImageWithGemini image (prompt s)));
    rewrite <- Himage; reflexivity.
Qed.

Lemma networkCalls_handleSubmit_valid (s : App) (image : UploadedFile) :
  originalImage s = Some image -> prompt s <> "" ->
  networkCalls w (handleSubmit s) = [request image (prompt s)].
Proof.
  intros Himage Hprompt. unfold handleSubmit.
  rewrite Himage, (truthy_nonempty _ Hprompt). cbn [negb].
  pose proof (networkCalls_editImageWithGemini w image (prompt s)) as Hcalls.
  cbn [prompt setEditedImage setError setIsLoading].
  unfold networkCalls in *. rewrite trace_bind, flat_map_app, Hcalls.
  destruct (result w (editImageWithGemini image (prompt s))); reflexivity.
Qed.

End Submit.

(** ** Claims about the submit handler *)

(** C4: with no stored image or with an empty instruction, the submit
    handler finishes at once without awaiting anything: no event occurs,
    so no network call; the error cell gets the validation message, and
    the loading flag and the edited image stay as they were. *)
Theorem invalid_submit_stays_local (w : world) (s : App) :
  originalImage s = None \/ prompt s = "" ->
  (exists s', handleSubmit s = Ret s') /\
  trace w (handleSubmit s) = [] /\
  networkCalls w (handleSubmit s) = [] /\
  error (result w (handleSubmit s)) = Some (JString validationMessage) /\
  isLoading (result w (handleSubmit s)) = isLoading s /\
  editedImage (result w (handleSubmit s)) = editedImage s /\
  originalImage (result w (handleSubmit s)) = originalImage s /\
  prompt (result w (handleSubmit s)) = prompt s.
Proof.
  intros H. unfold networkCalls, trace, result.
  rewrite (handleSubmit_invalid s H).
  repeat split. eexists. reflexivity.
Qed.

Lemma invalid_submit_stays_local_witness :
  let w := browser (always (Returned (responseWith [imagePart "BBBB" "image/png"] []))) in
  let s := setPrompt "" (setIsLoading true catSession) in
  (originalImage s = None \/ prompt s = "") /\
  trace w (handleSubmit s) = [] /\
  error (result w (handleSubmit s)) = Some (JString validationMessage) /\
  isLoading (result w (handleSubmit s)) = true /\
  editedImage (result w (handleSubmit s)) = Some "data:image/png;base64,OLD".
Proof.
  intros w s.
  assert (H : originalImage s = None \/ prompt s = "") by (right; reflexivity).
  destruct (invalid_submit_stays_local w s H)
    as (_ & Htrace & _ & Herror & Hloading & Hedited & _).
  repeat split; assumption.
Defined.



(** ** Claims about the request *)

(** C3: the request has the two ordered parts, the media-type tag, the
    instruction and the image-only configuration, but the stripping
    misses its aim when the media type holds a comma: for the image
    [annotatedPng], whose data is its media-type prefix followed by
    ["AAAA"], the inline part carries ["b;base64"], a piece of the
    prefix, in place of the raw content. *)
Theorem comma_in_media_type_sends_piece_of_prefix (w : world) :
  base64 annotatedPng = prefixOf (mimeType annotatedPng) ++ "AAAA" /\
  networkCalls w (editImageWithGemini annotatedPng "make it red")
    = [ {| model := "gemini-2.5-flash-image";
           contents :=
             {| parts := Some
                  [ {| inlineData :=
                         Some {| data := Some "b;base64";
                                 blobMimeType := Some "image/png;note=a,b" |};
                       text := None |};
                    {| inlineData := None; text := Some "make it red" |} ] |};
           config := {| responseModalities := [IMAGE] |} |} ] /\
  networkCalls w (editImageWithGemini annotatedPng "make it red")
    <> [wireRequest "AAAA" (mimeType annotatedPng) "make it red"].
Proof.
  rewrite networkCalls_editImageWithGemini.
  split; [reflexivity | split; [reflexivity | discriminate]].
Qed.

(** Stated for every UploadedFile that carries its media-type prefix,
    the stripping fails. *)
Lemma payload_claim_fails_on_comma_in_type :
  ~ (forall (w : world) (image : UploadedFile) (instruction raw : string),
        base64 image = prefixOf (mimeType image) ++ raw ->
        networkCalls w (editImageWithGemini image instruction)
          = [wireRequest raw (mimeType image) instruction]).
Proof.
  intros H.
  specialize (H (browser (always (Threw JNull))) annotatedPng "make it red" "AAAA"
                eq_refl).
  rewrite networkCalls_editImageWithGemini in H.
  vm_compute in H. discriminate H.
Qed.

(** Where the data is a prefix and raw content joined by the only comma
    of the data, the one request carries the raw content. *)
Theorem request_payload
  (w : world) (image : UploadedFile) (instruction pre raw : string) :
  base64 image = pre ++ "," ++ raw ->
  commaFree pre -> commaFree raw ->
  networkCalls w (editImageWithGemini image instruction)
    = [ {| model := "gemini-2.5-flash-image";
           contents :=
             {| parts := Some
                  [ {| inlineData := Some {| data := Some raw;
                                             blobMimeType := Some (mimeType image) |};
                       text := None |};
                    {| inlineData := None; text := Some instruction |} ] |};
           config := {| responseModalities := [IMAGE] |} |} ].
Proof.
  intros E Hpre Hraw.
  rewrite networkCalls_editImageWithGemini. unfold request.
  rewrite (base64Data_one_comma image pre raw E Hpre Hraw). reflexivity.
Qed.

Lemma request_payload_witness :
  networkCalls (browser (always (Threw JNull)))
               (editImageWithGemini catJpg "make it red")
  = [wireRequest "AAAA" "image/jpeg" "make it red"].
Proof.
  apply (request_payload (browser (always (Threw JNull))) catJpg "make it red"
           "data:image/jpeg;base64" "AAAA"); reflexivity.
Defined.

(** C9: the content the adapter transmits is the segment of the data
    between its first and its second comma: nothing when the data has no
    comma, the text up to the second comma when it has more than one
    (what follows is dropped); the step hands over all of the data behind
    the first comma exactly when the data has one comma. *)
Theorem strip_sends_second_segment
  (w : world) (image : UploadedFile) (instruction : string) :
  map transmittedContent
      (networkCalls w (editImageWithGemini image instruction))
    = [base64Data image]
  /\
  (commaFree (base64 image) -> base64Data image = None)
  /\
  (forall pre seg rest,
      base64 image = pre ++ "," ++ seg ++ "," ++ rest ->
      commaFree pre -> commaFree seg ->
      base64Data image = Some seg)
  /\
  (forall pre raw,
      base64 image = pre ++ "," ++ raw ->
      commaFree pre -> commaFree raw ->
      base64Data image = Some raw)
  /\
  (faithfulStrip image <-> occurrences comma (base64 image) = 1).
Proof.
  split; [| split; [| split; [| split]]].
  - rewrite networkCalls_editImageWithGemini. reflexivity.
  - apply base64Data_no_comma.
  - intros pre seg rest. apply base64Data_second_comma.
  - intros pre raw. apply base64Data_one_comma.
  - apply faithfulStrip_iff_one_comma.
Qed.

Lemma strip_sends_second_segment_witness :
  base64Data {| base64 := "AAAA"; mimeType := "image/png"; name := "a.png" |}
    = None
  /\
  base64Data annotatedPng = Some "b;base64"
  /\
  base64Data catJpg = Some "AAAA"
  /\
  faithfulStrip catJpg.
Proof.
  pose (w := browser (always (Threw JNull))).
  split; [| split; [| split]].
  - apply (proj1 (proj2 (strip_sends_second_segment w
             {| base64 := "AAAA"; mimeType := "image/png"; name := "a.png" |}
             "make it red"))).
    reflexivity.
  - apply (proj1 (proj2 (proj2 (strip_sends_second_segment w annotatedPng
             "make it red")))
             "data:image/png;note=a" "b;base64" "AAAA"); reflexivity.
  - apply (proj1 (proj2 (proj2 (proj2 (strip_sends_second_segment w catJpg
             "make it red"))))
             "data:image/jpeg;base64" "AAAA"); reflexivity.
  - apply (proj2 (proj2 (proj2 (proj2 (strip_sends_second_segment w catJpg
             "make it red"))))).
    reflexivity.
Defined.

(** ** Claims about ingestion *)

Lemma append_assoc (a b c : string) : (a ++ b) ++ c = a ++ b ++ c.
Proof.
  induction a as [| x a IH]; simpl; [reflexivity | rewrite IH; reflexivity].
Qed.

Lemma stripPrefix_app (p s : string) : stripPrefix p (p ++ s) = Some s.
Proof.
  induction p as [| c p IH]; simpl.
  - reflexivity.
  - rewrite Ascii.eqb_refl. exact IH.
Qed.

Lemma readAsDataURL_shape (file : File) :
  readAsDataURL file
  = prefixOf (file_type file) ++ base64_encode (file_bytes file).
Proof.
  unfold readAsDataURL, prefixOf. rewrite !append_assoc. reflexivity.
Qed.

(** C7: for every file, the UploadedFile that ingestion resolves to has
    the file's declared media type, and its data, behind the embedded
    media-type prefix, decodes to the bytes of the file. *)
Theorem ingestion_round_trip (w : world) (file : File) :
  readFile w file = Loaded (readAsDataURL file) ->
  exists u,
    result w (fileToUploadedFile file) = Resolved u /\
    mimeType u = file_type file /\
    name u = file_name file /\
    exists payload,
      stripPrefix (prefixOf (mimeType u)) (base64 u) = Some payload /\
      base64_decode payload = Some (file_bytes file).
Proof.
  intros Hread.
  exists {| base64 := readAsDataURL file; mimeType := file_type file;
            name := file_name file |}.
  split; [| split; [reflexivity | split; [reflexivity |]]].
  - unfold result, fileToUploadedFile, trigger. cbn [bind run answer].
    rewrite Hread. reflexivity.
  - exists (base64_encode (file_bytes file)). cbn [mimeType base64]. split.
    + rewrite readAsDataURL_shape. apply stripPrefix_app.
    + apply base64_round_trip.
Qed.

Lemma ingestion_round_trip_witness :
  let file := {| file_type := "image/png"; file_name := "dot.png";
                 file_bytes := ["M"%byte; "a"%byte; "n"%byte; x00; xff] |} in
  exists u,
    result (browser (always (Threw JNull))) (fileToUploadedFile file) = Resolved u /\
    mimeType u = "image/png" /\
    name u = "dot.png" /\
    exists payload,
      stripPrefix (prefixOf (mimeType u)) (base64 u) = Some payload /\
      base64_decode payload = Some ["M"%byte; "a"%byte; "n"%byte; x00; xff].
Proof.
  intros file.
  apply (ingestion_round_trip (browser (always (Threw JNull))) file).
  reflexivity.
Defined.

(** What ingestion produces from a file whose media type has no comma is
    stripped faithfully by the adapter: the content it transmits decodes
    to the bytes of the file. *)
Lemma ingested_file_is_sent_whole (file : File) :
  commaFree (file_type file) ->
  let u := {| base64 := readAsDataURL file; mimeType := file_type file;
              name := file_name file |} in
  base64Data u = Some (base64_encode (file_bytes file)).
Proof.
  intros Htype u.
  apply (base64Data_one_comma u ("data:" ++ file_type file ++ ";base64")).
  - unfold u, readAsDataURL. cbn [base64].
    rewrite !append_assoc. reflexivity.
  - unfold commaFree in *. rewrite !occurrences_app, Htype. reflexivity.
  - apply base64_encode_commaFree.
Qed.

(** * Further properties of the code *)

(** ** Selecting an image *)

Lemma run_handleImageSelect (w : world) (file : File) (s : App) :
  run w (handleImageSelect file s) =
  match readFile w file with
  | Loaded readerResult =>
      ([ObsRead file],
       {| originalImage := Some {| base64 := readerResult;
                                   mimeType := file_type file;
                                   name := file_name file |};
          editedImage := None; prompt := prompt s;
          isLoading := false; error := None |})
  | ReadError e =>
      ([ObsRead file; ObsConsole [e]],
       {| originalImage := originalImage s;
          editedImage := None; prompt := prompt s;
          isLoading := false; error := Some (JString readFailedMessage) |})
  end.
Proof.
  unfold handleImageSelect, fileToUploadedFile, trigger.
  cbn [bind run answer].
  destruct (readFile w file); reflexivity.
Qed.

Lemma fileReads_handleImageSelect (w : world) (file : File) (s : App) :
  fileReads w (handleImageSelect file s) = [file].
Proof.
  unfold fileReads, trace. rewrite run_handleImageSelect.
  destruct (readFile w file); reflexivity.
Qed.

(** X1: when the read succeeds, the selection handler stores the reader's
    result with the file's type and name as the new image, replacing the
    old one, and clears the edited image, the error and the loading flag;
    the instruction is kept. *)
Theorem image_select_replaces_image
  (w : world) (file : File) (s : App) (readerResult : string) :
  readFile w file = Loaded readerResult ->
  originalImage (result w (handleImageSelect file s))
    = Some {| base64 := readerResult; mimeType := file_type file;
              name := file_name file |} /\
  editedImage (result w (handleImageSelect file s)) = None /\
  error (result w (handleImageSelect file s)) = None /\
  isLoading (result w (handleImageSelect file s)) = false /\
  prompt (result w (handleImageSelect file s)) = prompt s /\
  consoleOutput w (handleImageSelect file s) = [].
Proof.
  intros Hread. unfold consoleOutput, trace, result.
  rewrite run_handleImageSelect, Hread. repeat split.
Qed.

Lemma image_select_replaces_image_witness :
  let w := browser (always (Threw JNull)) in
  let s' := result w (handleImageSelect dotPng catSession) in
  originalImage s'
    = Some {| base64 := "data:image/png;base64,TWFuAP8="; mimeType := "image/png";
              name := "dot.png" |} /\
  editedImage s' = None /\ error s' = None /\ isLoading s' = false /\
  prompt s' = "make it red" /\
  consoleOutput w (handleImageSelect dotPng catSession) = [].
Proof.
  intros w s'.
  apply (image_select_replaces_image w dotPng catSession
           "data:image/png;base64,TWFuAP8=").
  reflexivity.
Defined.

(** X2: when the read fails, the stored image stays as it was, the
    edited image is cleared, the loading flag is cleared, and the error
    cell gets the fixed read-failure message whatever the reader's error
    was; that error goes to the console only. *)
Theorem image_select_failure_keeps_image
  (w : world) (file : File) (s : App) (e : value) :
  readFile w file = ReadError e ->
  originalImage (result w (handleImageSelect file s)) = originalImage s /\
  editedImage (result w (handleImageSelect file s)) = None /\
  error (result w (handleImageSelect file s))
    = Some (JString "Failed to read the image file.") /\
  isLoading (result w (handleImageSelect file s)) = false /\
  prompt (result w (handleImageSelect file s)) = prompt s /\
  consoleOutput w (handleImageSelect file s) = [[e]].
Proof.
  intros Hread. unfold consoleOutput, trace, result.
  rewrite run_handleImageSelect, Hread. repeat split.
Qed.

Lemma image_select_failure_keeps_image_witness :
  let w := {| generateContent := always (Threw JNull);
              readFile := fun _ => ReadError (JObject ["type"; "target"]) |} in
  let s' := result w (handleImageSelect dotPng catSession) in
  originalImage s' = Some catJpg /\
  editedImage s' = None /\
  error s' = Some (JString "Failed to read the image file.") /\
  isLoading s' = false /\
  prompt s' = "make it red" /\
  consoleOutput w (handleImageSelect dotPng catSession)
    = [[JObject ["type"; "target"]]].
Proof.
  intros w s'.
  apply (image_select_failure_keeps_image w dotPng catSession
           (JObject ["type"; "target"])).
  reflexivity.
Defined.

(** X3: run on its own, with no other handler between its start and its
    end, the selection handler reads the chosen file once, makes no
    network call, and ends with the loading flag cleared, no edited
    image and the instruction unchanged, whatever the read gives. *)
Theorem image_select_is_local (w : world) (file : File) (s : App) :
  fileReads w (handleImageSelect file s) = [file] /\
  networkCalls w (handleImageSelect file s) = [] /\
  isLoading (result w (handleImageSelect file s)) = false /\
  editedImage (result w (handleImageSelect file s)) = None /\
  prompt (result w (handleImageSelect file s)) = prompt s.
Proof.
  unfold fileReads, networkCalls, trace, result.
  rewrite run_handleImageSelect.
  destruct (readFile w file); repeat split.
Qed.

(** X4: a change event without a file leaves the state as it is and
    causes no read; with files, only the first one is read, and the
    outcome is that of selecting it. *)
Theorem file_change_takes_first_file (w : world) (s : App) :
  run w (handleFileChange None s) = ([], s) /\
  run w (handleFileChange (Some []) s) = ([], s) /\
  (forall file others,
      fileReads w (handleFileChange (Some (file :: others)) s) = [file] /\
      result w (handleFileChange (Some (file :: others)) s)
        = result w (handleImageSelect file s)).
Proof.
  split; [reflexivity | split; [reflexivity |]].
  intros file others. unfold handleFileChange, index. cbn [nth_error].
  split; [| reflexivity].
  apply fileReads_handleImageSelect.
Qed.

(** ** More on the adapter *)

Lemma findImage_some_iff (ps : list Part) :
  (exists url, findImage ps = Some url) <-> existsb hasInlineData ps = true.
Proof.
  induction ps as [| q ps IH]; simpl.
  - split; [intros [url H]; discriminate | discriminate].
  - unfold hasInlineData at 1. destruct (inlineData q) as [blob |]; simpl.
    + split; [reflexivity | eauto].
    + exact IH.
Qed.

Lemma responseParts_firstCandidateParts (response : GenerateContentResponse) :
  responseParts response =
  match firstCandidateParts response with
  | Some ps => ps
  | None => []
  end.
Proof.
  unfold responseParts, firstCandidateParts, index.
  destruct (candidates response) as [[| c cs] |]; simpl; try reflexivity.
  destruct (content c) as [ct |]; reflexivity.
Qed.

Lemma consoleOutput_editImageWithGemini
  (w : world) (image : UploadedFile) (instruction : string) :
  consoleOutput w (editImageWithGemini image instruction) =
  match generateContent w (request image instruction) with
  | Returned response =>
      match findImage (responseParts response) with
      | Some _ => []
      | None => [[JString "Error editing image with Gemini:";
                  JError noImageMessage]]
      end
  | Threw v => [[JString "Error editing image with Gemini:"; v]]
  end.
Proof.
  unfold consoleOutput, trace. rewrite run_editImageWithGemini.
  destruct (generateContent w (request image instruction)) as [response | v].
  - destruct (findImage (responseParts response)); reflexivity.
  - reflexivity.
Qed.

(** X5: every run of the adapter makes one network call, with the
    request built from its arguments, and reads no file; it writes to the
    console exactly when it rejects, and then one entry: the fixed label
    and the cause as caught, which is the value the call threw, or the
    no-image error when the call returned. *)
Theorem adapter_calls_once_and_logs_failures
  (w : world) (image : UploadedFile) (instruction : string) :
  networkCalls w (editImageWithGemini image instruction)
    = [request image instruction] /\
  fileReads w (editImageWithGemini image instruction) = [] /\
  (consoleOutput w (editImageWithGemini image instruction) = [] <->
   exists url, result w (editImageWithGemini image instruction) = Resolved url) /\
  (forall v,
      generateContent w (request image instruction) = Threw v ->
      consoleOutput w (editImageWithGemini image instruction)
        = [[JString "Error editing image with Gemini:"; v]]) /\
  (forall response reason,
      generateContent w (request image instruction) = Returned response ->
      result w (editImageWithGemini image instruction) = Rejected reason ->
      consoleOutput w (editImageWithGemini image instruction)
        = [[JString "Error editing image with Gemini:";
            JError "No image was generated in the API response."]]).
Proof.
  split; [apply networkCalls_editImageWithGemini |].
  rewrite consoleOutput_editImageWithGemini.
  unfold fileReads, trace, result. rewrite run_editImageWithGemini.
  destruct (generateContent w (request image instruction)) as [response | v].
  - destruct (findImage (responseParts response)) as [url |]; simpl.
    + split; [reflexivity | split; [| split]].
      * split; [eauto | reflexivity].
      * discriminate.
      * discriminate.
    + split; [reflexivity | split; [| split]].
      * split; [discriminate | intros [url H]; discriminate].
      * discriminate.
      * reflexivity.
  - simpl. split; [reflexivity | split; [| split]].
    + split; [discriminate | intros [url H]; destruct v; discriminate].
    + intros v' E. injection E as <-. reflexivity.
    + discriminate.
Qed.

Lemma adapter_calls_once_and_logs_failures_witness :
  consoleOutput (browser (always (Threw (JNumber 503))))
                (editImageWithGemini catJpg "make it red")
    = [[JString "Error editing image with Gemini:"; JNumber 503]]
  /\
  consoleOutput (browser (always (Returned (responseWith [textPart "no"] []))))
                (editImageWithGemini catJpg "make it red")
    = [[JString "Error editing image with Gemini:";
        JError "No image was generated in the API response."]].
Proof.
  split.
  - apply (proj1 (proj2 (proj2 (proj2
             (adapter_calls_once_and_logs_failures
                (browser (always (Threw (JNumber 503)))) catJpg "make it red"))))
             (JNumber 503)).
    reflexivity.
  - apply (proj2 (proj2 (proj2 (proj2
             (adapter_calls_once_and_logs_failures
                (browser (always (Returned (responseWith [textPart "no"] []))))
                catJpg "make it red"))))
             (responseWith [textPart "no"] [])
             (JString "Failed to generate image: No image was generated in the API response."));
      reflexivity.
Defined.

(** X6: the adapter resolves exactly when the service returned a
    response whose first candidate has parts of which at least one
    carries inline data; in every other run it rejects. *)
Theorem adapter_resolves_iff_inline_part
  (w : world) (image : UploadedFile) (instruction : string) :
  ((exists url, result w (editImageWithGemini image instruction) = Resolved url)
   <->
   (exists response ps,
       generateContent w (request image instruction) = Returned response /\
       firstCandidateParts response = Some ps /\
       existsb hasInlineData ps = true))
  /\
  ((exists url, result w (editImageWithGemini image instruction) = Resolved url)
   \/
   (exists reason,
       result w (editImageWithGemini image instruction) = Rejected reason)).
Proof.
  unfold result. rewrite run_editImageWithGemini.
  destruct (generateContent w (request image instruction)) as [response | v].
  - rewrite responseParts_firstCandidateParts.
    destruct (firstCandidateParts response) as [ps |] eqn:Hps.
    + destruct (findImage ps) as [url |] eqn:Hfind; simpl.
      * split; [| left; eauto]. split; [| eauto].
        intros _. exists response, ps. repeat split; try assumption.
        apply findImage_some_iff. eauto.
      * split; [| right; eauto]. split.
        -- intros [url H]. discriminate.
        -- intros (r & ps' & Hr & Hps' & Hex). exfalso.
           injection Hr as <-. rewrite Hps in Hps'. injection Hps' as <-.
           apply findImage_some_iff in Hex. destruct Hex as [url Hurl].
           rewrite Hfind in Hurl. discriminate.
    + simpl. split; [| right; eauto]. split.
      * intros [url H]. discriminate.
      * intros (r & ps' & Hr & Hps' & _). injection Hr as <-.
        rewrite Hps in Hps'. discriminate.
  - simpl. split; [| right; destruct v; eauto]. split.
    + intros [url H]. destruct v; discriminate.
    + intros (r & ps & Hr & _). discriminate.
Qed.

Lemma adapter_resolves_iff_inline_part_witness :
  let w := browser (always (Returned (responseWith
             [textPart "done"; imagePart "BBBB" "image/png"] []))) in
  exists url, result w (editImageWithGemini catJpg "make it red") = Resolved url.
Proof.
  intros w.
  apply (proj2 (proj1 (adapter_resolves_iff_inline_part w catJpg "make it red"))).
  exists (responseWith [textPart "done"; imagePart "BBBB" "image/png"] []),
         [textPart "done"; imagePart "BBBB" "image/png"].
  repeat split.
Defined.

(** X7: a selected part whose inline data lacks its data or its media
    type does not make the adapter reject: it resolves, with the word
    [undefined] in the place of what is missing. *)
Theorem missing_blob_fields_print_undefined
  (w : world) (image : UploadedFile) (instruction : string)
  (pre post : list Part) (others : list Candidate) (blob : Blob)
  (t : option string) :
  noInlineData pre ->
  generateContent w (request image instruction)
    = Returned (responseWith
        (pre ++ {| inlineData := Some blob; text := t |} :: post) others) ->
  (forall mediaType,
      blob = {| data := None; blobMimeType := Some mediaType |} ->
      result w (editImageWithGemini image instruction)
        = Resolved ("data:" ++ mediaType ++ ";base64,undefined")) /\
  (forall payload,
      blob = {| data := Some payload; blobMimeType := None |} ->
      result w (editImageWithGemini image instruction)
        = Resolved ("data:undefined;base64," ++ payload)) /\
  (blob = {| data := None; blobMimeType := None |} ->
   result w (editImageWithGemini image instruction)
     = Resolved "data:undefined;base64,undefined").
Proof.
  intros Hpre Hserved.
  assert (H : result w (editImageWithGemini image instruction)
              = Resolved (dataUrl (blobMimeType blob) (data blob))).
  { unfold result. rewrite run_editImageWithGemini, Hserved.
    unfold responseWith, responseParts, index.
    cbn [candidates nth_error content parts].
    erewrite findImage_first by (try exact Hpre; reflexivity).
    reflexivity. }
  rewrite H. repeat split; intros; subst blob; reflexivity.
Qed.

Lemma missing_blob_fields_print_undefined_witness :
  let w := browser (always (Returned (responseWith
             [textPart "done"; {| inlineData := Some {| data := None;
                                                        blobMimeType := None |};
                                  text := None |}] []))) in
  result w (editImageWithGemini catJpg "make it red")
    = Resolved "data:undefined;base64,undefined".
Proof.
  intros w.
  apply (proj2 (proj2 (missing_blob_fields_print_undefined w catJpg "make it red"
           [textPart "done"] [] [] {| data := None; blobMimeType := None |} None
           ltac:(repeat constructor) eq_refl))).
  reflexivity.
Defined.

(** X8: an answer of the adapter can be edited again: given back as the
    data of an UploadedFile, with a media type and a payload free of
    commas, the stripping step recovers the payload the service had
    returned, and the next request carries it with that media type. *)
Theorem answer_can_be_edited_again
  (w : world) (image : UploadedFile) (instruction : string)
  (pre post : list Part) (others : list Candidate)
  (payload mediaType : string) (t : option string)
  (name' instruction' : string) :
  noInlineData pre ->
  generateContent w (request image instruction)
    = Returned (responseWith
        (pre ++ {| inlineData := Some {| data := Some payload;
                                         blobMimeType := Some mediaType |};
                   text := t |} :: post) others) ->
  commaFree mediaType -> commaFree payload ->
  exists url,
    result w (editImageWithGemini image instruction) = Resolved url /\
    networkCalls w
      (editImageWithGemini
         {| base64 := url; mimeType := mediaType; name := name' |} instruction')
      = [wireRequest payload mediaType instruction'].
Proof.
  intros Hpre Hserved Hmt Hpayload.
  exists ("data:" ++ mediaType ++ ";base64," ++ payload). split.
  - unfold result. rewrite run_editImageWithGemini, Hserved.
    unfold responseWith, responseParts, index.
    cbn [candidates nth_error content parts].
    erewrite findImage_first by (try exact Hpre; reflexivity).
    reflexivity.
  - rewrite networkCalls_editImageWithGemini. unfold request, wireRequest, imagePart, textPart.
    rewrite (base64Data_one_comma _ ("data:" ++ mediaType ++ ";base64") payload).
    + reflexivity.
    + cbn [base64]. rewrite !append_assoc. reflexivity.
    + unfold commaFree in *. rewrite !occurrences_app, Hmt. reflexivity.
    + exact Hpayload.
Qed.

Lemma answer_can_be_edited_again_witness :
  let w := browser (always (Returned (responseWith
             [textPart "done"; imagePart "BBBB" "image/png"] []))) in
  exists url,
    result w (editImageWithGemini catJpg "make it red") = Resolved url /\
    networkCalls w
      (editImageWithGemini
         {| base64 := url; mimeType := "image/png"; name := "red.png" |}
         "now make it blue")
      = [wireRequest "BBBB" "image/png" "now make it blue"].
Proof.
  intros w.
  apply (answer_can_be_edited_again w catJpg "make it red"
           [textPart "done"] [] [] "BBBB" "image/png" None
           "red.png" "now make it blue").
  - repeat constructor.
  - reflexivity.
  - reflexivity.
  - reflexivity.
Defined.

(** ** More on the submit handler *)

Section SubmitRuns.

Variable w : world.
Variable s : App.
Variable image : UploadedFile.
Hypothesis Himage : originalImage s = Some image.
Hypothesis Hprompt : prompt s <> "".

Lemma run_handleSubmit_valid :
  run w (handleSubmit s) =
  match run w (editImageWithGemini image (prompt s)) with
  | (tr, Resolved url) =>
      (tr,
       {| originalImage := originalImage s; editedImage := Some url;
          prompt := prompt s; isLoading := false; error := None |})
  | (tr, Rejected e) =>
      ((tr ++ [ObsConsole [e]])%list,
       {| originalImage := originalImage s; editedImage := None;
          prompt := prompt s; isLoading := false; error := Some e |})
  end.
Proof.
  unfold handleSubmit.
  rewrite Himage, (truthy_nonempty _ Hprompt). cbn [negb].
  rewrite run_bind. cbn [prompt setEditedImage setError setIsLoading].
  destruct (run w (editImageWithGemini image (prompt s))) as [tr [url | e]];
    cbn; rewrite ?app_nil_r, <- Himage; reflexivity.
Qed.

Lemma consoleOutput_handleSubmit_valid :
  consoleOutput w (handleSubmit s) =
  (consoleOutput w (editImageWithGemini image (prompt s)) ++
   match result w (editImageWithGemini image (prompt s)) with
   | Resolved _ => []
   | Rejected e => [[e]]
   end)%list.
Proof.
  unfold consoleOutput, trace, result. rewrite run_handleSubmit_valid.
  destruct (run w (editImageWithGemini image (prompt s))) as [tr [url | e]];
    cbn [fst snd].
  - rewrite app_nil_r. reflexivity.
  - rewrite flat_map_app. reflexivity.
Qed.

End SubmitRuns.

(** X9: run on its own, with no other handler between the submit and
    the answer, a submit that the adapter resolves ends with the edited
    image equal to the resolved string, the error cell null even if it
    held a message before the submit, the loading flag false, the stored
    image and the instruction as they were; the run made one network
    call and wrote nothing to the console. *)
Theorem successful_submit_stores_answer
  (w : world) (s : App) (image : UploadedFile) (url : string) :
  originalImage s = Some image ->
  prompt s <> "" ->
  result w (editImageWithGemini image (prompt s)) = Resolved url ->
  editedImage (result w (handleSubmit s)) = Some url /\
  error (result w (handleSubmit s)) = None /\
  isLoading (result w (handleSubmit s)) = false /\
  originalImage (result w (handleSubmit s)) = originalImage s /\
  prompt (result w (handleSubmit s)) = prompt s /\
  networkCalls w (handleSubmit s) = [request image (prompt s)] /\
  consoleOutput w (handleSubmit s) = [].
Proof.
  intros Himage Hprompt Hres.
  rewrite (consoleOutput_handleSubmit_valid w s image Himage Hprompt), Hres.
  rewrite (networkCalls_handleSubmit_valid w s image Himage Hprompt).
  rewrite (result_handleSubmit_valid w s image Himage Hprompt), Hres.
  cbn [editedImage error isLoading originalImage prompt].
  repeat split; try (symmetry; exact Himage).
  rewrite app_nil_r, consoleOutput_editImageWithGemini.
  unfold result in Hres. rewrite run_editImageWithGemini in Hres.
  destruct (generateContent w (request image (prompt s))) as [response | v].
  - destruct (findImage (responseParts response)); [reflexivity | discriminate].
  - destruct v; discriminate.
Qed.

Lemma successful_submit_stores_answer_witness :
  let w := browser (always (Returned (responseWith
             [textPart "done"; imagePart "BBBB" "image/png"] []))) in
  let s := setError (Some (JString "Failed to generate image: timeout")) catSession in
  editedImage (result w (handleSubmit s)) = Some "data:image/png;base64,BBBB" /\
  error (result w (handleSubmit s)) = None /\
  isLoading (result w (handleSubmit s)) = false /\
  originalImage (result w (handleSubmit s)) = Some catJpg /\
  prompt (result w (handleSubmit s)) = "make it red" /\
  networkCalls w (handleSubmit s) = [request catJpg "make it red"] /\
  consoleOutput w (handleSubmit s) = [].
Proof.
  intros w s.
  apply (successful_submit_stores_answer w s catJpg "data:image/png;base64,BBBB").
  - reflexivity.
  - discriminate.
  - reflexivity.
Defined.

(** X10: in every run, whatever the service does, the submit handler
    leaves the stored image and the instruction as they were. *)
Theorem submit_keeps_image_and_prompt (w : world) (s : App) :
  originalImage (result w (handleSubmit s)) = originalImage s /\
  prompt (result w (handleSubmit s)) = prompt s.
Proof.
  destruct (originalImage s) as [image |] eqn:Himage.
  - destruct (string_dec (prompt s) "") as [Hempty | Hprompt].
    + unfold result. rewrite (handleSubmit_invalid s (or_intror Hempty)).
      simpl. split; [exact Himage | reflexivity].
    + rewrite (result_handleSubmit_valid w s image Himage Hprompt).
      destruct (result w (editImageWithGemini image (prompt s)));
        split; reflexivity.
  - unfold result. rewrite (handleSubmit_invalid s (or_introl Himage)).
    simpl. split; [exact Himage | reflexivity].
Qed.

(** X11: run on its own, with no other handler between the submit and
    its end, a submit that passes validation is all or nothing, whatever
    the cells held before: it ends with the loading flag false and
    either an edited image and no error, or an error string and no
    edited image. *)
Theorem submit_is_all_or_nothing
  (w : world) (s : App) (image : UploadedFile) :
  originalImage s = Some image ->
  prompt s <> "" ->
  isLoading (result w (handleSubmit s)) = false /\
  ((exists url,
       editedImage (result w (handleSubmit s)) = Some url /\
       error (result w (handleSubmit s)) = None)
   \/
   (exists msg,
       editedImage (result w (handleSubmit s)) = None /\
       error (result w (handleSubmit s)) = Some (JString msg))).
Proof.
  intros Himage Hprompt.
  rewrite (result_handleSubmit_valid w s image Himage Hprompt).
  destruct (result w (editImageWithGemini image (prompt s)))
    as [url | reason] eqn:Hres; cbn [isLoading editedImage error].
  - split; [reflexivity |]. left. eauto.
  - split; [reflexivity |]. right.
    destruct (rejected_is_string w image (prompt s) reason Hres) as (msg & -> & _).
    eauto.
Qed.

Lemma submit_is_all_or_nothing_witness :
  let w := browser (always (Returned (responseWith [textPart "no"] []))) in
  isLoading (result w (handleSubmit catSession)) = false /\
  ((exists url,
       editedImage (result w (handleSubmit catSession)) = Some url /\
       error (result w (handleSubmit catSession)) = None)
   \/
   (exists msg,
       editedImage (result w (handleSubmit catSession)) = None /\
       error (result w (handleSubmit catSession)) = Some (JString msg))).
Proof.
  intros w.
  apply (submit_is_all_or_nothing w catSession catJpg).
  - reflexivity.
  - discriminate.
Defined.

(** X12: a failed submit writes to the console twice: the adapter logs
    the cause as it caught it (the thrown value, or the no-image error),
    then the handler logs the string the adapter rejected with. *)
Theorem failed_submit_logs_cause_then_message
  (w : world) (s : App) (image : UploadedFile) (reason : value) :
  originalImage s = Some image ->
  prompt s <> "" ->
  result w (editImageWithGemini image (prompt s)) = Rejected reason ->
  (forall v,
      generateContent w (request image (prompt s)) = Threw v ->
      consoleOutput w (handleSubmit s)
        = [[JString "Error editing image with Gemini:"; v]; [reason]]) /\
  (forall response,
      generateContent w (request image (prompt s)) = Returned response ->
      consoleOutput w (handleSubmit s)
        = [[JString "Error editing image with Gemini:";
            JError "No image was generated in the API response."];
           [reason]]).
Proof.
  intros Himage Hprompt Hres.
  rewrite (consoleOutput_handleSubmit_valid w s image Himage Hprompt), Hres.
  rewrite consoleOutput_editImageWithGemini.
  unfold result in Hres. rewrite run_editImageWithGemini in Hres.
  split.
  - intros v Hv. rewrite Hv. reflexivity.
  - intros response Hr. rewrite Hr in *.
    destruct (findImage (responseParts response)); [discriminate | reflexivity].
Qed.

Lemma failed_submit_logs_cause_then_message_witness :
  let w := browser (always (Threw (JError "connection refused"))) in
  consoleOutput w (handleSubmit catSession)
    = [[JString "Error editing image with Gemini:"; JError "connection refused"];
       [JString "Failed to generate image: connection refused"]].
Proof.
  intros w.
  apply (proj1 (failed_submit_logs_cause_then_message w catSession catJpg
           (JString "Failed to generate image: connection refused")
           eq_refl ltac:(discriminate) eq_refl)).
  reflexivity.
Defined.

(** ** From the file to the service *)

(** X13: selecting a file and then submitting an instruction sends the
    service the file's own bytes: with a media type free of commas and a
    reader that delivers the file's data URL, the one request carries the
    Base64 text of the bytes, tagged with the file's type, and that text
    decodes to the bytes. *)
Theorem selected_file_reaches_service
  (w : world) (file : File) (s : App) (instruction : string) :
  readFile w file = Loaded (readAsDataURL file) ->
  commaFree (file_type file) ->
  instruction <> "" ->
  networkCalls w
    (handleSubmit (setPrompt instruction (result w (handleImageSelect file s))))
    = [wireRequest (base64_encode (file_bytes file)) (file_type file) instruction]
  /\
  exists payload,
    map transmittedContent
      (networkCalls w
         (handleSubmit
            (setPrompt instruction (result w (handleImageSelect file s)))))
      = [Some payload] /\
    base64_decode payload = Some (file_bytes file).
Proof.
  intros Hread Htype Hinstruction.
  set (u := {| base64 := readAsDataURL file; mimeType := file_type file;
               name := file_name file |}).
  assert (Hcalls :
    networkCalls w
      (handleSubmit (setPrompt instruction (result w (handleImageSelect file s))))
    = [wireRequest (base64_encode (file_bytes file)) (file_type file) instruction]).
  { rewrite (networkCalls_handleSubmit_valid w _ u).
    - cbn [prompt setPrompt]. unfold request, wireRequest, imagePart, textPart.
      unfold u at 1. rewrite (ingested_file_is_sent_whole file Htype).
      reflexivity.
    - unfold result. rewrite run_handleImageSelect, Hread. reflexivity.
    - exact Hinstruction. }
  split; [exact Hcalls |].
  exists (base64_encode (file_bytes file)). rewrite Hcalls.
  split; [reflexivity | apply base64_round_trip].
Qed.

Lemma selected_file_reaches_service_witness :
  let w := browser (always (Threw JNull)) in
  networkCalls w
    (handleSubmit (setPrompt "make it red" (result w (handleImageSelect dotPng catSession))))
    = [wireRequest "TWFuAP8=" "image/png" "make it red"].
Proof.
  intros w.
  apply (proj1 (selected_file_reaches_service w dotPng catSession "make it red"
           eq_refl eq_refl ltac:(discriminate))).
Defined.

(** ** What the screen shows *)

Lemma resolved_is_truthy
  (w : world) (image : UploadedFile) (instruction url : string) :
  result w (editImageWithGemini image instruction) = Resolved url ->
  truthy url = true.
Proof.
  unfold result. rewrite run_editImageWithGemini.
  destruct (generateContent w (request image instruction)) as [response | v].
  - induction (responseParts response) as [| q ps IH]; simpl.
    + discriminate.
    + destruct (inlineData q); simpl.
      * intros H. injection H as <-. reflexivity.
      * exact IH.
  - destruct v; discriminate.
Qed.

Lemma rejected_is_truthy
  (w : world) (image : UploadedFile) (instruction : string) (reason : value) :
  result w (editImageWithGemini image instruction) = Rejected reason ->
  truthyValue reason = true /\ reason <> JString validationMessage.
Proof.
  intros Hrej.
  destruct (rejected_is_string w image instruction reason Hrej)
    as (msg & -> & [[cause ->] | ->]); split; try reflexivity; discriminate.
Qed.

(** X14: after a submit that ran on its own, with no other handler
    between the submit and the answer, and that the adapter resolved,
    the screen shows the answer in the edited pane and offers it for
    download under [edited-] followed by the name of the stored file; no
    alert and no spinner are shown, and the prompt and the submit button
    are enabled. *)
Theorem answer_is_shown_and_downloadable
  (w : world) (s : App) (image : UploadedFile) (url : string) :
  originalImage s = Some image ->
  prompt s <> "" ->
  result w (editImageWithGemini image (prompt s)) = Resolved url ->
  exists e,
    render (result w (handleSubmit s)) = Editor e /\
    shown (editedPane e) = Img url "Edited Image" /\
    children (editedPane e) = [DownloadLink url ("edited-" ++ name image)] /\
    spinner (editedPane e) = false /\
    alert e = None /\
    promptDisabled e = false /\
    submitDisabled e = false.
Proof.
  intros Himage Hprompt Hres.
  pose proof (resolved_is_truthy w image (prompt s) url Hres) as Hurl.
  rewrite (result_handleSubmit_valid w s image Himage Hprompt), Hres.
  unfold render, ImageDisplay.
  cbn [originalImage editedImage isLoading error prompt].
  rewrite Hurl, (truthy_nonempty _ Hprompt).
  eexists. split; [reflexivity |]. repeat split.
Qed.

Lemma answer_is_shown_and_downloadable_witness :
  let w := browser (always (Returned (responseWith
             [textPart "done"; imagePart "BBBB" "image/png"] []))) in
  exists e,
    render (result w (handleSubmit catSession)) = Editor e /\
    shown (editedPane e) = Img "data:image/png;base64,BBBB" "Edited Image" /\
    children (editedPane e)
      = [DownloadLink "data:image/png;base64,BBBB" "edited-cat.jpg"] /\
    spinner (editedPane e) = false /\
    alert e = None /\
    promptDisabled e = false /\
    submitDisabled e = false.
Proof.
  intros w.
  apply (answer_is_shown_and_downloadable w catSession catJpg
           "data:image/png;base64,BBBB").
  - reflexivity.
  - discriminate.
  - reflexivity.
Defined.

(** X15: after a submit that ran on its own, with no other handler
    between the submit and the failure, and that the adapter rejected,
    the screen shows the rejection string in the alert, the placeholder
    in the edited pane and no download link, also when an earlier answer
    was on display before the submit; the submit button is enabled
    again. *)
Theorem failure_is_shown_in_alert
  (w : world) (s : App) (image : UploadedFile) (reason : value) :
  originalImage s = Some image ->
  prompt s <> "" ->
  result w (editImageWithGemini image (prompt s)) = Rejected reason ->
  exists e,
    render (result w (handleSubmit s)) = Editor e /\
    alert e = Some reason /\
    shown (editedPane e) = Placeholder /\
    children (editedPane e) = [] /\
    spinner (editedPane e) = false /\
    submitDisabled e = false.
Proof.
  intros Himage Hprompt Hres.
  destruct (rejected_is_truthy w image (prompt s) reason Hres) as [Htruthy _].
  rewrite (result_handleSubmit_valid w s image Himage Hprompt), Hres.
  unfold render, ImageDisplay.
  cbn [originalImage editedImage isLoading error prompt].
  rewrite Htruthy, (truthy_nonempty _ Hprompt).
  eexists. split; [reflexivity |]. repeat split.
Qed.

Lemma failure_is_shown_in_alert_witness :
  let w := browser (always (Threw (JError "connection refused"))) in
  exists e,
    render (result w (handleSubmit catSession)) = Editor e /\
    alert e = Some (JString "Failed to generate image: connection refused") /\
    shown (editedPane e) = Placeholder /\
    children (editedPane e) = [] /\
    spinner (editedPane e) = false /\
    submitDisabled e = false.
Proof.
  intros w.
  apply (failure_is_shown_in_alert w catSession catJpg
           (JString "Failed to generate image: connection refused")).
  - reflexivity.
  - discriminate.
  - reflexivity.
Defined.

(** X16: whenever the screen has an enabled submit button, a click
    passes the validation of the handler: an image is stored, the
    instruction is not empty, no request is pending, the handler makes
    one network call and never leaves the validation message. *)
Theorem enabled_button_passes_validation (w : world) (s : App) (e : editor) :
  render s = Editor e ->
  submitDisabled e = false ->
  exists image,
    originalImage s = Some image /\
    prompt s <> "" /\
    isLoading s = false /\
    networkCalls w (handleSubmit s) = [request image (prompt s)] /\
    error (result w (handleSubmit s)) <> Some (JString validationMessage).
Proof.
  unfold render. intros Hrender Hdisabled.
  destruct (originalImage s) as [image |] eqn:Himage; [| discriminate].
  injection Hrender as <-. cbn [submitDisabled] in Hdisabled.
  apply orb_false_iff in Hdisabled as [Hloading Htruthy].
  apply negb_false_iff in Htruthy.
  assert (Hprompt : prompt s <> "").
  { intros E. rewrite E in Htruthy. discriminate. }
  exists image. repeat split; try assumption.
  - apply (networkCalls_handleSubmit_valid w s image Himage Hprompt).
  - rewrite (result_handleSubmit_valid w s image Himage Hprompt).
    destruct (result w (editImageWithGemini image (prompt s)))
      as [url | reason] eqn:Hres; cbn [error]; [discriminate |].
    intros E. injection E as E.
    exact (proj2 (rejected_is_truthy w image (prompt s) reason Hres) E).
Qed.

Lemma enabled_button_passes_validation_witness :
  let w := browser (always (Threw JNull)) in
  exists image,
    originalImage catSession = Some image /\
    prompt catSession <> "" /\
    isLoading catSession = false /\
    networkCalls w (handleSubmit catSession) = [request image (prompt catSession)] /\
    error (result w (handleSubmit catSession)) <> Some (JString validationMessage).
Proof.
  intros w.
  destruct (render catSession) as [| e] eqn:Hrender; [discriminate |].
  apply (enabled_button_passes_validation w catSession e Hrender).
  injection Hrender as <-. reflexivity.
Defined.

(** X17: after a selection that ran on its own, with no other handler
    between its start and the end of the read, and whose read gave a
    non-empty result, the screen is the editor with the new image in the
    original pane and nothing in the edited pane: placeholder, no
    download link, no spinner, no alert; the submit button is enabled
    exactly when an instruction is typed in. *)
Theorem selected_image_is_shown
  (w : world) (file : File) (s : App) (readerResult : string) :
  readFile w file = Loaded readerResult ->
  truthy readerResult = true ->
  exists e,
    render (result w (handleImageSelect file s)) = Editor e /\
    shown (originalPane e) = Img readerResult "Original Image" /\
    shown (editedPane e) = Placeholder /\
    children (editedPane e) = [] /\
    spinner (editedPane e) = false /\
    alert e = None /\
    submitDisabled e = negb (truthy (prompt s)).
Proof.
  intros Hread Htruthy. unfold result.
  rewrite run_handleImageSelect, Hread.
  unfold render, ImageDisplay.
  cbn [snd originalImage editedImage isLoading error prompt base64].
  rewrite Htruthy. eexists. split; [reflexivity |]. repeat split.
Qed.

Lemma selected_image_is_shown_witness :
  let w := browser (always (Threw JNull)) in
  exists e,
    render (result w (handleImageSelect dotPng catSession)) = Editor e /\
    shown (originalPane e) = Img "data:image/png;base64,TWFuAP8=" "Original Image" /\
    shown (editedPane e) = Placeholder /\
    children (editedPane e) = [] /\
    spinner (editedPane e) = false /\
    alert e = None /\
    submitDisabled e = negb (truthy "make it red").
Proof.
  intros w.
  apply (selected_image_is_shown w dotPng catSession
           "data:image/png;base64,TWFuAP8="); reflexivity.
Defined.

(** X18: with no image stored, a failed read stores the read-failure
    message but the screen stays the uploader, which shows no alert: the
    message is not on display. *)
Theorem first_read_failure_is_not_shown
  (w : world) (file : File) (s : App) (e : value) :
  originalImage s = None ->
  readFile w file = ReadError e ->
  error (result w (handleImageSelect file s))
    = Some (JString "Failed to read the image file.") /\
  render (result w (handleImageSelect file s)) = Uploader.
Proof.
  intros Himage Hread. unfold result.
  rewrite run_handleImageSelect, Hread. unfold render.
  cbn [snd originalImage error]. rewrite Himage. split; reflexivity.
Qed.

Lemma first_read_failure_is_not_shown_witness :
  let w := {| generateContent := always (Threw JNull);
              readFile := fun _ => ReadError JNull |} in
  let s := setOriginalImage None catSession in
  error (result w (handleImageSelect dotPng s))
    = Some (JString "Failed to read the image file.") /\
  render (result w (handleImageSelect dotPng s)) = Uploader.
Proof.
  intros w s.
  apply (first_read_failure_is_not_shown w dotPng s JNull); reflexivity.
Defined.

(** ** Overlapping handlers *)

Lemma complete_spawn {A : Type} (w : world) (p : prog A)
  (k : A -> Async.thread) (s : App) :
  Async.complete w (Async.spawn p k) s =
  ((fst (run w p) ++ fst (Async.complete w (k (snd (run w p))) s))%list,
   snd (Async.complete w (k (snd (run w p))) s)).
Proof.
  induction p as [a | X e c IH]; simpl.
  - destruct (Async.complete w (k a) s); reflexivity.
  - destruct e; simpl; rewrite IH;
      match goal with
      | |- context [run w (c ?x)] => destruct (run w (c x)) as [tr a]
      end; reflexivity.
Qed.

(** X19: run on its own, with the world answering at once, each handler
    read as a thread of setter calls ends in the same state, after the
    same events, as the handler read as a function of the state it was
    invoked in. *)
Theorem threads_alone_agree_with_handlers
  (w : world) (s : App) (file : File) (files : option (list File)) :
  Async.complete w (Async.handleSubmit s) s = run w (handleSubmit s) /\
  Async.complete w (Async.handleImageSelect file) s
    = run w (handleImageSelect file s) /\
  Async.complete w (Async.handleFileChange files) s
    = run w (handleFileChange files s).
Proof.
  assert (Hselect : forall f,
    Async.complete w (Async.handleImageSelect f) s = run w (handleImageSelect f s)).
  { intros f. unfold Async.handleImageSelect, handleImageSelect.
    cbn [Async.complete Async.set]. rewrite complete_spawn, run_bind.
    destruct (run w (fileToUploadedFile f)) as [tr [u | e]]; reflexivity. }
  split; [| split].
  - unfold Async.handleSubmit, handleSubmit.
    destruct (originalImage s) as [image |]; [| reflexivity].
    destruct (negb (truthy (prompt s))); [reflexivity |].
    cbn [Async.complete Async.set]. rewrite complete_spawn, run_bind.
    cbn [prompt setEditedImage setError setIsLoading].
    destruct (run w (editImageWithGemini image (prompt s))) as [tr [url | e]];
      reflexivity.
  - apply Hselect.
  - unfold Async.handleFileChange, handleFileChange.
    destruct files as [fs |]; [| reflexivity].
    destruct (index fs 0); [apply Hselect | reflexivity].
Qed.

Section Interleaving.

Import Async.

Lemma tidy_handleImageSelect (file : File) (c : bool) :
  tidy c (Async.handleImageSelect file).
Proof.
  unfold Async.handleImageSelect, fileToUploadedFile, trigger.
  cbn [tidy negb bind spawn]. split; [left; reflexivity |].
  intros [readerResult | e]; cbn [tidy negb bind spawn].
  - reflexivity.
  - split; [| reflexivity].
    right. exists readFailedMessage. split; [reflexivity | discriminate].
Qed.

Lemma tidy_handleSubmit (s : App) (image : UploadedFile) (c : bool) :
  originalImage s = Some image -> truthy (prompt s) = true ->
  tidy c (Async.handleSubmit s).
Proof.
  intros Himage Htruthy. unfold Async.handleSubmit.
  rewrite Himage, Htruthy.
  unfold editImageWithGemini, tryBlock, catchBlock, trigger.
  cbn [tidy negb bind spawn]. split; [left; reflexivity |].
  intros [response | v]; cbn [tidy negb bind spawn].
  - destruct (findImage (responseParts response)); cbn [tidy negb bind spawn].
    + reflexivity.
    + split; [| reflexivity].
      right. eexists. split; [reflexivity | discriminate].
  - destruct v; cbn [tidy negb bind spawn]; (split; [| reflexivity]);
      right; eexists; (split; [reflexivity | discriminate]).
Qed.

Lemma advance_tidy (t : thread) :
  forall (c : bool) (s : App),
    tidy c t ->
    (c = true -> isLoading s = false) ->
    errorOk (error s) ->
    errorOk (error (fst (advance t s))) /\
    match snd (advance t s) with
    | None => isLoading (fst (advance t s)) = false
    | Some b => tidyBlocked b
    end.
Proof.
  induction t as [| a next IH | args next IH | request k _ | file k _];
    intros c s Htidy Hflag Herror; cbn [advance fst snd].
  - split; [exact Herror | apply Hflag; exact Htidy].
  - destruct a; cbn [tidy] in Htidy; cbn [Async.set].
    + apply (IH c); assumption.
    + apply (IH c); assumption.
    + apply (IH c); assumption.
    + apply (IH (negb v)); [exact Htidy | | exact Herror].
      cbn [setIsLoading isLoading]. destruct v; [discriminate | reflexivity].
    + destruct Htidy as [Hv Hnext]. apply (IH c); assumption.
  - apply (IH c); assumption.
  - split; [exact Herror | exact Htidy].
  - split; [exact Herror | exact Htidy].
Qed.

Lemma launch_invariant (t : thread) (c : bool) (s : App) (pending : list blocked) :
  tidy c t ->
  (c = true -> isLoading s = false) ->
  errorOk (error s) ->
  Forall tidyBlocked pending ->
  invariant (launch t s pending).
Proof.
  intros Htidy Hflag Herror Hpending.
  destruct (advance_tidy t c s Htidy Hflag Herror) as [He Hb].
  unfold launch, invariant. destruct (advance t s) as [s' [b |]];
    cbn [fst snd] in *.
  - split; [exact He |]. split; [discriminate |]. constructor; assumption.
  - split; [exact He |]. split; [intros _; exact Hb | exact Hpending].
Qed.

Lemma enabled_button_state (s : App) (e : editor) :
  render s = Editor e -> submitDisabled e = false ->
  exists image,
    originalImage s = Some image /\ truthy (prompt s) = true /\
    isLoading s = false.
Proof.
  unfold render. intros Hrender Hdisabled.
  destruct (originalImage s) as [image |]; [| discriminate].
  injection Hrender as <-. cbn [submitDisabled] in Hdisabled.
  apply orb_false_iff in Hdisabled as [Hloading Htruthy].
  apply negb_false_iff in Htruthy. eauto.
Qed.

Lemma Forall_remove_middle {A : Type} (P : A -> Prop) (xs ys : list A) (x : A) :
  Forall P (xs ++ x :: ys) -> P x /\ Forall P (xs ++ ys).
Proof.
  intros H. apply Forall_app in H as [Hxs Hrest].
  inversion Hrest as [| ? ? Hx Hys]; subst.
  split; [exact Hx | apply Forall_app; split; assumption].
Qed.

Lemma step_invariant (c1 c2 : config) :
  step c1 c2 -> invariant c1 -> invariant c2.
Proof.
  intros Hstep. destruct Hstep as
    [s pending e Hrender Hdisabled
    | s pending files
    | s pending e v Hrender Hdisabled
    | s before after request k o
    | s before after file k o];
    intros (Herror & Hflag & Hpending); cbn [fst snd] in *.
  - destruct (enabled_button_state s e Hrender Hdisabled)
      as (image & Himage & Htruthy & Hloading).
    apply (launch_invariant _ true); try assumption.
    + apply (tidy_handleSubmit s image true Himage Htruthy).
    + intros _. exact Hloading.
  - unfold Async.handleFileChange.
    destruct files as [fs |];
      [destruct (index fs 0) as [file |] |];
      try (repeat split; assumption).
    apply (launch_invariant _ false); try assumption.
    + apply tidy_handleImageSelect.
    + discriminate.
  - repeat split; assumption.
  - apply Forall_remove_middle in Hpending as [Hk Hrest].
    apply (launch_invariant _ false); try assumption.
    + apply Hk.
    + discriminate.
  - apply Forall_remove_middle in Hpending as [Hk Hrest].
    apply (launch_invariant _ false); try assumption.
    + apply Hk.
    + discriminate.
Qed.

Lemma steps_invariant (c1 c2 : config) :
  steps c1 c2 -> invariant c1 -> invariant c2.
Proof.
  intros Hsteps. induction Hsteps as [c | c1 c2 c3 Hstep _ IH].
  - exact (fun H => H).
  - intros H. apply IH. exact (step_invariant c1 c2 Hstep H).
Qed.

End Interleaving.

(** X20: however the user's actions on the screen and the completions
    of pending reads and network calls interleave, from the initial
    state on, the error cell holds null or a string other than the
    validation message, and whenever no read or call is pending the
    loading flag is false. *)
Theorem overlapping_handlers_keep_error_and_flag
  (s : App) (pending : list Async.blocked) :
  Async.reachable (s, pending) ->
  (error s = None \/
   exists msg, error s = Some (JString msg) /\ msg <> validationMessage) /\
  (pending = [] -> isLoading s = false).
Proof.
  intros Hreach.
  assert (Hinit : Async.invariant (initialApp, [])).
  { repeat split; [left; reflexivity | constructor]. }
  destruct (steps_invariant _ _ Hreach Hinit) as (Herror & Hflag & _).
  split; assumption.
Qed.

Lemma overlapping_handlers_keep_error_and_flag_witness :
  let s := {| originalImage := None; editedImage := None; prompt := "";
              isLoading := false;
              error := Some (JString "Failed to read the image file.") |} in
  (error s = None \/
   exists msg, error s = Some (JString msg) /\ msg <> validationMessage) /\
  (@nil Async.blocked = [] -> isLoading s = false).
Proof.
  intros s.
  apply (overlapping_handlers_keep_error_and_flag s []).
  unfold Async.reachable.
  eapply Async.steps_step.
  - apply (Async.ChooseFiles initialApp [] (Some [dotPng])).
  - eapply Async.steps_step.
    + apply (Async.ReadSettles _ [] [] dotPng _ (ReadError JNull)).
    + apply Async.steps_refl.
Defined.

Lemma launch_handleSubmit (s : App) (image : UploadedFile)
  (pending : list Async.blocked) :
  originalImage s = Some image -> truthy (prompt s) = true ->
  exists k,
    Async.launch (Async.handleSubmit s) s pending
      = (setEditedImage None (setError None (setIsLoading true s)),
         Async.OnGenerate (request image (prompt s)) k :: pending) /\
    forall (s' : App) (response : GenerateContentResponse) (url : string),
      findImage (responseParts response) = Some url ->
      Async.advance (k (Returned response)) s'
        = (setIsLoading false (setEditedImage (Some url) s'), None).
Proof.
  intros Himage Htruthy. unfold Async.launch, Async.handleSubmit.
  rewrite Himage, Htruthy.
  unfold editImageWithGemini, tryBlock, catchBlock, trigger.
  cbn [negb bind Async.spawn Async.advance Async.set].
  eexists. split; [reflexivity |].
  intros s' response url Hfind.
  cbn [bind Async.spawn Async.advance Async.set]. rewrite Hfind. reflexivity.
Qed.

Lemma launch_handleImageSelect (file : File) (s : App)
  (pending : list Async.blocked) :
  exists k,
    Async.launch (Async.handleFileChange (Some [file])) s pending
      = (setEditedImage None (setError None (setIsLoading true s)),
         Async.OnRead file k :: pending) /\
    forall (s' : App) (readerResult : string),
      Async.advance (k (Loaded readerResult)) s'
        = (setIsLoading false
             (setOriginalImage
                (Some {| base64 := readerResult; mimeType := file_type file;
                         name := file_name file |}) s'),
           None).
Proof.
  unfold Async.launch, Async.handleFileChange, Async.handleImageSelect,
    fileToUploadedFile, trigger, index.
  cbn [nth_error bind Async.spawn Async.advance Async.set].
  eexists. split; reflexivity.
Qed.

Lemma steps_snoc (c1 c2 c3 : Async.config) :
  Async.steps c1 c2 -> Async.step c2 c3 -> Async.steps c1 c3.
Proof.
  intros Hsteps Hstep. induction Hsteps as [c | c1 c2 c4 Hfirst _ IH].
  - eapply Async.steps_step; [exact Hstep | apply Async.steps_refl].
  - eapply Async.steps_step; [exact Hfirst | exact (IH Hstep)].
Qed.

(** The state after: submit, file choice, read completed. *)
Lemma choose_during_request
  (s : App) (e : editor) (image : UploadedFile)
  (file : File) (readerResult : string) :
  render s = Editor e ->
  submitDisabled e = false ->
  originalImage s = Some image ->
  exists k,
    Async.steps (s, [])
      ({| originalImage := Some {| base64 := readerResult;
                                   mimeType := file_type file;
                                   name := file_name file |};
          editedImage := None; prompt := prompt s;
          isLoading := false; error := None |},
       [Async.OnGenerate (request image (prompt s)) k]) /\
    truthy (prompt s) = true /\
    forall (s' : App) (response : GenerateContentResponse) (url : string),
      findImage (responseParts response) = Some url ->
      Async.advance (k (Returned response)) s'
        = (setIsLoading false (setEditedImage (Some url) s'), None).
Proof.
  intros Hrender Hdisabled Himage.
  destruct (enabled_button_state s e Hrender Hdisabled)
    as (image' & Himage' & Htruthy & Hloading).
  rewrite Himage in Himage'. injection Himage' as <-.
  destruct (launch_handleSubmit s image [] Himage Htruthy) as (k & Hlaunch & Hk).
  set (s1 := setEditedImage None (setError None (setIsLoading true s))) in *.
  destruct (launch_handleImageSelect file s1
              [Async.OnGenerate (request image (prompt s)) k])
    as (kr & Hchoose & Hread).
  set (s1' := setEditedImage None (setError None (setIsLoading true s1))) in *.
  exists k. split; [| split; [exact Htruthy | exact Hk]].
  eapply Async.steps_step.
  { eapply Async.ClickGenerate; eassumption. }
  rewrite Hlaunch.
  eapply Async.steps_step.
  { apply (Async.ChooseFiles s1 _ (Some [file])). }
  rewrite Hchoose.
  eapply Async.steps_step.
  { apply (Async.ReadSettles s1' [] _ file kr (Loaded readerResult)). }
  unfold Async.launch. rewrite Hread. apply Async.steps_refl.
Qed.

(** X21: the loading flag does not cover a pending request.  When a
    file is chosen while a submitted request is pending and the read
    completes first, the request for the old image is still pending
    while the loading flag is false, the spinner is gone and the submit
    button is enabled again. *)
Theorem file_choice_clears_flag_of_pending_request
  (s : App) (e : editor) (image : UploadedFile)
  (file : File) (readerResult : string) :
  render s = Editor e ->
  submitDisabled e = false ->
  originalImage s = Some image ->
  exists s2 k e2,
    Async.steps (s, []) (s2, [Async.OnGenerate (request image (prompt s)) k]) /\
    originalImage s2
      = Some {| base64 := readerResult; mimeType := file_type file;
                name := file_name file |} /\
    isLoading s2 = false /\
    render s2 = Editor e2 /\
    spinner (editedPane e2) = false /\
    submitDisabled e2 = false.
Proof.
  intros Hrender Hdisabled Himage.
  destruct (choose_during_request s e image file readerResult
              Hrender Hdisabled Himage) as (k & Hsteps & Htruthy & _).
  eexists. exists k. eexists.
  split; [exact Hsteps |].
  split; [reflexivity |]. split; [reflexivity |].
  unfold render. cbn [originalImage]. split; [reflexivity |].
  cbn [editedPane submitDisabled spinner ImageDisplay isLoading prompt].
  rewrite Htruthy. split; reflexivity.
Qed.

Lemma file_choice_clears_flag_of_pending_request_witness :
  exists s2 k e2,
    Async.steps (catSession, [])
      (s2, [Async.OnGenerate (request catJpg "make it red") k]) /\
    originalImage s2
      = Some {| base64 := "data:image/png;base64,TWFuAP8=";
                mimeType := "image/png"; name := "dot.png" |} /\
    isLoading s2 = false /\
    render s2 = Editor e2 /\
    spinner (editedPane e2) = false /\
    submitDisabled e2 = false.
Proof.
  destruct (render catSession) as [| e] eqn:Hrender; [discriminate |].
  apply (file_choice_clears_flag_of_pending_request catSession e catJpg dotPng
           "data:image/png;base64,TWFuAP8=" Hrender).
  - injection Hrender as <-. reflexivity.
  - reflexivity.
Defined.

(** X22: an answer can land beside another image.  When a file is
    chosen while a submitted request is pending, the read completes
    first and the service then answers with an image part, the answer
    to the request for the old image becomes the edited image next to
    the new image, and the screen offers it for download under
    [edited-] followed by the name of the new file. *)
Theorem answer_for_old_image_lands_beside_new_image
  (s : App) (e : editor) (image : UploadedFile)
  (file : File) (readerResult : string)
  (pre post : list Part) (others : list Candidate)
  (payload mediaType : string) (t : option string) :
  render s = Editor e ->
  submitDisabled e = false ->
  originalImage s = Some image ->
  noInlineData pre ->
  exists s2 k s3 e3,
    Async.steps (s, []) (s2, [Async.OnGenerate (request image (prompt s)) k]) /\
    Async.launch
      (k (Returned (responseWith
            (pre ++ {| inlineData := Some {| data := Some payload;
                                             blobMimeType := Some mediaType |};
                       text := t |} :: post) others)))
      s2 [] = (s3, []) /\
    Async.steps (s, []) (s3, []) /\
    originalImage s3
      = Some {| base64 := readerResult; mimeType := file_type file;
                name := file_name file |} /\
    editedImage s3 = Some ("data:" ++ mediaType ++ ";base64," ++ payload) /\
    error s3 = None /\
    isLoading s3 = false /\
    render s3 = Editor e3 /\
    children (editedPane e3)
      = [DownloadLink ("data:" ++ mediaType ++ ";base64," ++ payload)
                      ("edited-" ++ file_name file)].
Proof.
  intros Hrender Hdisabled Himage Hpre.
  destruct (choose_during_request s e image file readerResult
              Hrender Hdisabled Himage) as (k & Hsteps & Htruthy & Hk).
  set (response := responseWith
         (pre ++ {| inlineData := Some {| data := Some payload;
                                          blobMimeType := Some mediaType |};
                    text := t |} :: post) others).
  set (url := "data:" ++ mediaType ++ ";base64," ++ payload).
  assert (Hfind : findImage (responseParts response) = Some url).
  { unfold response, responseWith, responseParts, index.
    cbn [candidates nth_error content parts].
    erewrite findImage_first by (try exact Hpre; reflexivity).
    reflexivity. }
  set (s2 := {| originalImage := Some {| base64 := readerResult;
                                         mimeType := file_type file;
                                         name := file_name file |};
                editedImage := None; prompt := prompt s;
                isLoading := false; error := None |}) in *.
  assert (Hlaunch : Async.launch (k (Returned response)) s2 []
                    = (setIsLoading false (setEditedImage (Some url) s2), [])).
  { unfold Async.launch. rewrite (Hk s2 response url Hfind). reflexivity. }
  exists s2, k, (setIsLoading false (setEditedImage (Some url) s2)).
  eexists. split; [exact Hsteps |]. split; [exact Hlaunch |].
  split.
  { apply (steps_snoc _ _ _ Hsteps). rewrite <- Hlaunch.
    apply (Async.GenerateSettles s2 [] [] _ k (Returned response)). }
  split; [reflexivity |]. split; [reflexivity |].
  split; [reflexivity |]. split; [reflexivity |].
  unfold render. cbn [originalImage setIsLoading setEditedImage s2].
  split; reflexivity.
Qed.

Lemma answer_for_old_image_lands_beside_new_image_witness :
  exists s2 k s3 e3,
    Async.steps (catSession, [])
      (s2, [Async.OnGenerate (request catJpg "make it red") k]) /\
    Async.launch
      (k (Returned (responseWith
            ([textPart "done"] ++ imagePart "BBBB" "image/png" :: []) [])))
      s2 [] = (s3, []) /\
    Async.steps (catSession, []) (s3, []) /\
    originalImage s3
      = Some {| base64 := "data:image/png;base64,TWFuAP8=";
                mimeType := "image/png"; name := "dot.png" |} /\
    editedImage s3 = Some "data:image/png;base64,BBBB" /\
    error s3 = None /\
    isLoading s3 = false /\
    render s3 = Editor e3 /\
    children (editedPane e3)
      = [DownloadLink "data:image/png;base64,BBBB" "edited-dot.png"].
Proof.
  destruct (render catSession) as [| e] eqn:Hrender; [discriminate |].
  apply (answer_for_old_image_lands_beside_new_image catSession e catJpg dotPng
           "data:image/png;base64,TWFuAP8=" [textPart "done"] [] []
           "BBBB" "image/png" None Hrender).
  - injection Hrender as <-. reflexivity.
  - reflexivity.
  - repeat constructor.
Defined.

(** ** A failed submit, alone and among other handlers *)

Lemma launch_handleSubmit_settles (s : App) (image : UploadedFile) :
  originalImage s = Some image -> prompt s <> "" ->
  exists k,
    Async.launch (Async.handleSubmit s) s []
      = (setEditedImage None (setError None (setIsLoading true s)),
         [Async.OnGenerate (request image (prompt s)) k]) /\
    forall (w : world) (s' : App),
      Async.advance (k (generateContent w (request image (prompt s)))) s'
      = match result w (editImageWithGemini image (prompt s)) with
        | Resolved url => (setIsLoading false (setEditedImage (Some url) s'), None)
        | Rejected e => (setIsLoading false (setError (Some e) s'), None)
        end.
Proof.
  intros Himage Hprompt. unfold Async.launch, Async.handleSubmit.
  rewrite Himage, (truthy_nonempty _ Hprompt).
  unfold editImageWithGemini, tryBlock, catchBlock, trigger.
  cbn [negb bind Async.spawn Async.advance Async.set].
  eexists. split; [reflexivity |].
  intros w s'. unfold result. cbn [bind run answer].
  destruct (generateContent w (request image (prompt s))) as [response | v];
    cbn [bind Async.spawn Async.advance Async.set].
  - destruct (findImage (responseParts response)); reflexivity.
  - destruct v; reflexivity.
Qed.

(** The first six steps of the run below: choose and read a file, type,
    submit, choose and read a file again. *)
Ltac choose_type_submit_choose :=
  eapply Async.steps_step;
  [ apply (Async.ChooseFiles initialApp [] (Some [dotPng])) | ];
  eapply Async.steps_step;
  [ apply (Async.ReadSettles _ [] [] dotPng _ (Loaded (readAsDataURL dotPng))) | ];
  eapply Async.steps_step;
  [ eapply (Async.TypePrompt _ _ _ "make it red"); reflexivity | ];
  eapply Async.steps_step;
  [ eapply Async.ClickGenerate; reflexivity | ];
  eapply Async.steps_step;
  [ apply (Async.ChooseFiles _ _ (Some [dotPng])) | ];
  eapply Async.steps_step;
  [ apply (Async.ReadSettles _ [] _ dotPng _ (Loaded (readAsDataURL dotPng))) | ].

(** C8, as the spec states it, fails: a submit can end in failure with
    an edited image on display.  From the initial state: a file is
    chosen and read, an instruction typed, the request submitted; while
    it is pending a file is chosen and read again, which enables the
    button, and a second request is submitted; the first is answered
    with an image, then the second fails.  The second invocation ends
    with the loading flag false and its message in the error cell, and
    with the answer of the first as the edited image. *)
Lemma failed_submit_can_leave_an_answer :
  exists (s6 s7 s8 s9 : App) (e6 : editor) (image : UploadedFile)
         (first second : Async.blocked) (k : outcome -> Async.thread),
    Async.reachable (s6, [first]) /\
    render s6 = Editor e6 /\ submitDisabled e6 = false /\
    originalImage s6 = Some image /\
    second = Async.OnGenerate (request image (prompt s6)) k /\
    Async.launch (Async.handleSubmit s6) s6 [first] = (s7, [second; first]) /\
    Async.steps (s7, [second; first]) (s8, [second]) /\
    Async.launch (k (Threw (JError "connection refused"))) s8 [] = (s9, []) /\
    Async.reachable (s9, []) /\
    isLoading s9 = false /\
    error s9 = Some (JString "Failed to generate image: connection refused") /\
    editedImage s9 = Some "data:image/png;base64,BBBB".
Proof.
  do 9 eexists.
  split.
  { unfold Async.reachable. choose_type_submit_choose. apply Async.steps_refl. }
  split; [reflexivity |]. split; [reflexivity |].
  split; [reflexivity |]. split; [reflexivity |].
  split; [reflexivity |].
  split.
  { eapply Async.steps_step.
    - match goal with
      | |- Async.step (?s, [?b2; Async.OnGenerate ?r ?k1]) _ =>
          apply (Async.GenerateSettles s [b2] [] r k1
                   (Returned (responseWith [imagePart "BBBB" "image/png"] [])))
      end.
    - apply Async.steps_refl. }
  split; [reflexivity |].
  split.
  { unfold Async.reachable. choose_type_submit_choose.
    eapply Async.steps_step.
    { eapply Async.ClickGenerate; reflexivity. }
    eapply Async.steps_step.
    { match goal with
      | |- Async.step ?c _ =>
          let c' := eval cbv in c in
          match c' with
          | (?s, [?b2; Async.OnGenerate ?r ?k1]) =>
              change c with (s, ([b2] ++ Async.OnGenerate r k1 :: [])%list);
              apply (Async.GenerateSettles s [b2] [] r k1
                       (Returned (responseWith [imagePart "BBBB" "image/png"] [])))
          end
      end. }
    eapply Async.steps_step.
    { match goal with
      | |- Async.step ?c _ =>
          let c' := eval cbv in c in
          match c' with
          | (?s, [Async.OnGenerate ?r ?k2]) =>
              change c with (s, ([] ++ Async.OnGenerate r k2 :: [])%list);
              apply (Async.GenerateSettles s [] [] r k2
                       (Threw (JError "connection refused")))
          end
      end. }
    apply Async.steps_refl. }
  split; [reflexivity |]. split; reflexivity.
Qed.

(** C8, amended: when the adapter rejects, the submit handler's last
    actions store the rejection value (a string) in the error cell and
    set the loading flag to false, whatever the state has become in the
    meantime, and leave the edited image, the stored image and the
    instruction as they are then.  When no other handler runs between
    the submit and its failure, the handler so leaves the loading flag
    false, the edited image null, the rejection value in the error cell
    and the stored image and the instruction as they were, after one
    network call. *)
Theorem failed_submit_is_stable
  (w : world) (s : App) (image : UploadedFile) (reason : value) :
  originalImage s = Some image ->
  prompt s <> "" ->
  result w (editImageWithGemini image (prompt s)) = Rejected reason ->
  (isLoading (result w (handleSubmit s)) = false /\
   editedImage (result w (handleSubmit s)) = None /\
   error (result w (handleSubmit s)) = Some reason /\
   (exists msg, reason = JString msg) /\
   originalImage (result w (handleSubmit s)) = originalImage s /\
   prompt (result w (handleSubmit s)) = prompt s /\
   networkCalls w (handleSubmit s) = [request image (prompt s)])
  /\
  exists k,
    Async.launch (Async.handleSubmit s) s []
      = ({| originalImage := originalImage s; editedImage := None;
            prompt := prompt s; isLoading := true; error := None |},
         [Async.OnGenerate (request image (prompt s)) k]) /\
    forall s' : App,
      Async.advance (k (generateContent w (request image (prompt s)))) s'
      = ({| originalImage := originalImage s'; editedImage := editedImage s';
            prompt := prompt s'; isLoading := false; error := Some reason |},
         None).
Proof.
  intros Himage Hprompt Hrej. split.
  - rewrite (result_handleSubmit_valid w s image Himage Hprompt), Hrej.
    rewrite (networkCalls_handleSubmit_valid w s image Himage Hprompt).
    cbn [isLoading editedImage error originalImage prompt].
    repeat split; try (symmetry; exact Himage).
    destruct (rejected_is_string w image (prompt s) reason Hrej) as (msg & -> & _).
    eexists. reflexivity.
  - destruct (launch_handleSubmit_settles s image Himage Hprompt)
      as (k & Hlaunch & Hk).
    exists k. split; [exact Hlaunch |].
    intros s'. rewrite (Hk w s'), Hrej. reflexivity.
Qed.

Lemma failed_submit_is_stable_witness :
  let w := browser (always (Threw (JError "connection refused"))) in
  let reason := JString "Failed to generate image: connection refused" in
  (isLoading (result w (handleSubmit catSession)) = false /\
   editedImage (result w (handleSubmit catSession)) = None /\
   error (result w (handleSubmit catSession)) = Some reason /\
   (exists msg, reason = JString msg) /\
   originalImage (result w (handleSubmit catSession)) = Some catJpg /\
   prompt (result w (handleSubmit catSession)) = "make it red" /\
   networkCalls w (handleSubmit catSession) = [request catJpg "make it red"])
  /\
  exists k,
    Async.launch (Async.handleSubmit catSession) catSession []
      = ({| originalImage := Some catJpg; editedImage := None;
            prompt := "make it red"; isLoading := true; error := None |},
         [Async.OnGenerate (request catJpg "make it red") k]) /\
    forall s' : App,
      Async.advance (k (Threw (JError "connection refused"))) s'
      = ({| originalImage := originalImage s'; editedImage := editedImage s';
            prompt := prompt s'; isLoading := false; error := Some reason |},
         None).
Proof.
  intros w reason.
  apply (failed_submit_is_stable w catSession catJpg reason).
  - reflexivity.
  - discriminate.
  - reflexivity.
Defined.
